(** * The row reconciliation engine of the spreadsheet comparison tool

    A shallow embedding of [compare_dataframes] (main.py, lines 42-83) and of
    the pandas operations it is built from, followed by the properties the
    specification states about it.

    Modelling boundary.  A cell is modelled by the Python object that [str]
    sees; the engine never computes with a cell, it only stringifies it, so a
    float is carried by the text [str] gives for it.  The two tables passed to
    the engine are two distinct objects (the caller passes [df.copy()] of
    each), so the mutable store the engine works on is a pair of tables.  The
    iteration order of a Python [set] is not fixed by the language: it is a
    parameter of the engine ([set_iter]) about which only "it enumerates the
    set" is assumed.

    Three behaviours of pandas are outside the model, and the statements are
    written so as not to depend on them.  A row read with [.iloc[0]] from a
    frame whose columns are all numeric, one of them a float column, comes
    back with its integers turned into floats: what is stated about the
    Modified rows is stated of their labels and of the rows they were read
    from, and of their cells only for tables with a text column among the
    selected ones.  [pd.DataFrame] refuses a list of Series whose labels
    repeat, and the join of line 45 may refuse a missing key cell: that the
    engine returns is stated for selections that name no column twice and
    tables with rows and without a missing key cell, or under the
    assumption that some call returned.  The errors modelled are the
    [KeyError] of a column lookup, the [IndexError] of [.iloc[0]] and the
    failing index join of the report; where a run of the page is said not to
    fail, these are the failures meant. *)

From Stdlib Require Import List String Ascii ZArith Bool Permutation.
From Stdlib Require Import DecimalString.
Import ListNotations.
Open Scope string_scope.
Open Scope list_scope.

(** ** Cells *)

Inductive value : Type :=
| VInt (n : Z)
| VFloat (repr : string)
| VStr (s : string)
| VBool (b : bool).

(** What pandas shows for a missing cell. *)
Definition NaN : value := VFloat "nan".

(** Python's [str] (and pandas' [astype(str)]) on a cell. *)
Definition str (v : value) : string :=
  match v with
  | VInt n => NilZero.string_of_int (Z.to_int n)
  | VFloat repr => repr
  | VStr s => s
  | VBool true => "True"
  | VBool false => "False"
  end.

Definition value_eq_dec (x y : value) : {x = y} + {x <> y}.
Proof.
  decide equality; auto using Z.eq_dec, string_dec, bool_dec.
Defined.

Definition value_eqb (x y : value) : bool :=
  if value_eq_dec x y then true else false.

(** ** Errors *)

Inductive exn : Type :=
| KeyError (missing : list string)
| IndexError.

Inductive result (A : Type) : Type :=
| Ok (a : A)
| Err (e : exn).

Arguments Ok {A} a.
Arguments Err {A} e.

Definition bind {A B : Type} (m : result A) (f : A -> result B) : result B :=
  match m with
  | Ok a => f a
  | Err e => Err e
  end.

Notation "x <- m ;; k" := (bind m (fun x => k))
  (at level 100, m at next level, right associativity).

Definition is_ok {A : Type} (m : result A) : bool :=
  match m with Ok _ => true | Err _ => false end.

(** ** Series and data frames

    A [Series] is a labelled run of cells with a name; a row of a data frame
    is the Series whose labels are the column names and whose name is the
    row's index label.  A data frame is its column list and its rows. *)

Record Series : Type := mkSeries {
  name : Z;
  items : list (string * value)
}.

Record DataFrame : Type := mkDataFrame {
  columns : list string;
  rows : list Series
}.

Fixpoint lookup (c : string) (l : list (string * value)) : option value :=
  match l with
  | [] => None
  | (c', v) :: l' => if String.eqb c' c then Some v else lookup c l'
  end.

(** [row[c]]: the cell under label [c] (the first one; the selections the
    caller builds never repeat a label). *)
Definition cell (r : Series) (c : string) : value :=
  match lookup c (items r) with
  | Some v => v
  | None => NaN
  end.

Definition mem (c : string) (l : list string) : bool :=
  existsb (String.eqb c) l.

(** [df[c]]: one column, as the list of its cells. *)
Definition column (df : DataFrame) (c : string) : list value :=
  map (fun r => cell r c) (rows df).

Definition select (cols : list string) (r : Series) : Series :=
  mkSeries (name r) (map (fun c => (c, cell r c)) cols).

(** [df[cols]]: the columns [cols], in that order; a label that is not a
    column raises [KeyError]. *)
Definition getitem_columns (df : DataFrame) (cols : list string)
  : result DataFrame :=
  match filter (fun c => negb (mem c (columns df))) cols with
  | [] => Ok (mkDataFrame cols (map (select cols) (rows df)))
  | missing => Err (KeyError missing)
  end.

(** [df[mask]]: the rows at which the boolean mask holds, in order. *)
Definition getitem_mask (df : DataFrame) (mask : Series -> bool) : DataFrame :=
  mkDataFrame (columns df) (filter mask (rows df)).

(** [df.iloc[0]]: the first row of the frame, [IndexError] when it has none.
    The cells are handed back as the frame stores them.  pandas gives the row
    the common dtype of the frame's columns: in a frame whose columns are all
    numeric and one of them a float column, the integers of the row come back
    as floats ([5] as [5.0]).  That conversion is outside the model.  It
    cannot happen in a frame that has a text column ([has_text] below); the
    statements that speak of the cells of a row read this way are made for
    such frames, the others speak of the row's label or of the row it was
    read from. *)
Definition iloc0 (df : DataFrame) : result Series :=
  match rows df with
  | r :: _ => Ok r
  | [] => Err IndexError
  end.

Definition set_item (c : string) (v : value) (r : Series) : Series :=
  mkSeries (name r)
    (match lookup c (items r) with
     | Some _ =>
         map (fun it => if String.eqb (fst it) c then (c, v) else it) (items r)
     | None => items r ++ [(c, v)]
     end).

(** [df[c] = vals]: overwrites column [c] when the frame has one, appends it
    as the last column otherwise. *)
Definition setitem (df : DataFrame) (c : string) (vals : list value)
  : DataFrame :=
  mkDataFrame
    (if mem c (columns df) then columns df else columns df ++ [c])
    (map (fun rv => set_item c (snd rv) (fst rv)) (combine (rows df) vals)).

(** [df.astype(str)]: every cell replaced by its text.  For a missing cell
    the text is ["nan"]; a pandas that keeps the cell missing instead makes
    the join of line 45 raise [TypeError], an error the model does not have.
    The statements that promise a return are made for tables without a
    missing key cell ([key_cells_present] below). *)
Definition astype_str (df : DataFrame) : DataFrame :=
  mkDataFrame (columns df)
    (map (fun r =>
            mkSeries (name r)
              (map (fun it => (fst it, VStr (str (snd it)))) (items r)))
         (rows df)).

(** [df.agg(sep.join, axis=1)]: every row joined into one string. *)
Definition agg_join (sep : string) (df : DataFrame) : list value :=
  map (fun r => VStr (String.concat sep (map (fun it => str (snd it)) (items r))))
      (rows df).

(** [pd.DataFrame(list_of_series)]: one row per Series, the columns being the
    labels of the Series.  pandas refuses Series whose labels repeat (a
    selection that names a column twice) with [InvalidIndexError]; the model
    builds the frame all the same, and the statements that promise a return
    with Modified rows are made for selections that name no column twice. *)
Definition DataFrame_of_series (l : list Series) : DataFrame :=
  mkDataFrame
    (match l with
     | [] => []
     | r :: _ => map fst (items r)
     end)
    l.

(** [pd.DataFrame(columns=cols)] *)
Definition DataFrame_of_columns (cols : list string) : DataFrame :=
  mkDataFrame cols [].

(** [series.isin(other)] at one cell. *)
Definition isin (v : value) (vs : list value) : bool :=
  existsb (value_eqb v) vs.

(** [set(series)] and [s & t], as duplicate-free lists. *)
Definition set_of (l : list value) : list value := nodup value_eq_dec l.

Definition set_inter (s t : list value) : list value :=
  filter (fun v => isin v t) s.

(** ** The engine *)

Record Outputs : Type := mkOutputs {
  deleted : DataFrame;
  added : DataFrame;
  modified_before_df : DataFrame;
  modified_after_df : DataFrame
}.

Definition KEY : string := "_key".
Definition SEP : string := "||".

(** Lines 45-46, right-hand side:
    [df[key_columns].astype(str).agg('||'.join, axis=1)].  The only error
    modelled is the [KeyError] of the column lookup; see [astype_str] for a
    missing key cell.  What the row-wise join gives on a frame without rows
    or without columns is decided inside pandas; the statements that promise
    a return are made for tables with rows and at least one key column. *)
Definition composite_keys (df : DataFrame) (key_columns : list string)
  : result (list value) :=
  sub <- getitem_columns df key_columns ;;
  Ok (agg_join SEP (astype_str sub)).

(** Lines 66-67: [df[df['_key'] == key][cols_to_use].iloc[0]]: the first row
    bearing the key, its cells as stored (see [iloc0]). *)
Definition first_row (df : DataFrame) (key : value) (cols_to_use : list string)
  : result Series :=
  sub <- getitem_columns
           (getitem_mask df (fun r => value_eqb (cell r KEY) key))
           cols_to_use ;;
  iloc0 sub.

(** Lines 70-74. *)
Definition has_changes (compare_columns : list string)
  (row_before row_after : Series) : bool :=
  existsb (fun col => negb (String.eqb (str (cell row_before col))
                                       (str (cell row_after col))))
          compare_columns.

(** Lines 65-78, with the two accumulators threaded through. *)
Fixpoint modified_loop (df_before df_after : DataFrame)
  (cols_to_use compare_columns : list string) (keys : list value)
  (modified_before modified_after : list Series)
  : result (list Series * list Series) :=
  match keys with
  | [] => Ok (modified_before, modified_after)
  | key :: keys' =>
      row_before <- first_row df_before key cols_to_use ;;
      row_after <- first_row df_after key cols_to_use ;;
      if has_changes compare_columns row_before row_after
      then modified_loop df_before df_after cols_to_use compare_columns keys'
             (modified_before ++ [row_before]) (modified_after ++ [row_after])
      else modified_loop df_before df_after cols_to_use compare_columns keys'
             modified_before modified_after
  end.

(** Lines 80-81. *)
Definition frame_or_empty (l : list Series) (cols_to_use : list string)
  : DataFrame :=
  match l with
  | [] => DataFrame_of_columns cols_to_use
  | _ :: _ => DataFrame_of_series l
  end.

Section Engine.

(** The order in which [for key in common_keys] visits a set. *)
Variable set_iter : list value -> list value.

(** Lines 49-83: everything after the two [_key] columns are in place. *)
Definition compare_keyed (df_before df_after : DataFrame)
  (key_columns compare_columns : list string) : result Outputs :=
  let cols_to_use := key_columns ++ compare_columns in
  let deleted_keys :=
    getitem_mask df_before
      (fun r => negb (isin (cell r KEY) (column df_after KEY))) in
  deleted <- getitem_columns deleted_keys cols_to_use ;;
  let added_keys :=
    getitem_mask df_after
      (fun r => negb (isin (cell r KEY) (column df_before KEY))) in
  added <- getitem_columns added_keys cols_to_use ;;
  let common_keys :=
    set_inter (set_of (column df_before KEY)) (set_of (column df_after KEY)) in
  modified <- modified_loop df_before df_after cols_to_use compare_columns
                (set_iter common_keys) [] [] ;;
  Ok (mkOutputs deleted added
        (frame_or_empty (fst modified) cols_to_use)
        (frame_or_empty (snd modified) cols_to_use)).

(** [compare_dataframes]: the result is the pair of tables as the call
    leaves them, and either the four output tables or the exception
    raised. *)
Definition compare_dataframes (df_before df_after : DataFrame)
  (key_columns compare_columns : list string)
  : (DataFrame * DataFrame) * result Outputs :=
  match composite_keys df_before key_columns with
  | Err e => ((df_before, df_after), Err e)
  | Ok keys_before =>
      let df_before := setitem df_before KEY keys_before in
      match composite_keys df_after key_columns with
      | Err e => ((df_before, df_after), Err e)
      | Ok keys_after =>
          let df_after := setitem df_after KEY keys_after in
          ((df_before, df_after),
           compare_keyed df_before df_after key_columns compare_columns)
      end
  end.

End Engine.

(** An iteration order to run the engine with: the order of first
    appearance. *)
Definition first_seen (l : list value) : list value := l.

(** Building tables for examples: rows are numbered from 0, as a loader's
    RangeIndex does. *)
Fixpoint number_rows (cols : list string) (n : Z) (data : list (list value))
  : list Series :=
  match data with
  | [] => []
  | cells :: data' =>
      mkSeries n (combine cols cells) :: number_rows cols (n + 1) data'
  end.

Definition table (cols : list string) (data : list (list value)) : DataFrame :=
  mkDataFrame cols (number_rows cols 0 data).

(** ** Notions the statements are written with *)

(** The composite key of a row: its stringified cells at the key columns, in
    key-column order, joined with the separator.  Lines 45-46 compute it for
    every row of a table ([composite_keys_ok] below). *)
Definition composite_key (key_columns : list string) (r : Series) : string :=
  String.concat SEP (map (fun c => str (cell r c)) key_columns).

Definition key_of (key_columns : list string) (r : Series) : value :=
  VStr (composite_key key_columns r).

Definition keys_of (key_columns : list string) (df : DataFrame) : list value :=
  map (key_of key_columns) (rows df).

(** A row, and a table, once the engine has written the [_key] column. *)
Definition keyed (key_columns : list string) (r : Series) : Series :=
  set_item KEY (key_of key_columns r) r.

Definition with_key (key_columns : list string) (df : DataFrame) : DataFrame :=
  setitem df KEY (keys_of key_columns df).

(** A row as the engine cuts it out: its cells under [cols_to_use], read after
    the [_key] column has been written. *)
Definition out_row (key_columns cols_to_use : list string) (r : Series)
  : Series :=
  select cols_to_use (keyed key_columns r).

(** The first row of a table bearing a given composite key. *)
Definition first_with_key (key_columns : list string) (df : DataFrame)
  (key : value) : option Series :=
  find (fun r => value_eqb (key_of key_columns r) key) (rows df).

(** Every label of [cols] is a column of [df]: what [df[cols]] checks. *)
Definition resolves (df : DataFrame) (cols : list string) : bool :=
  forallb (fun c => mem c (columns df)) cols.

(** ** The engine in closed form

    What the loop appends, and the four tables the engine returns, written
    as functions of the tables passed in. *)

(** The keys both tables bear (line 60). *)
Definition common_keys (k : list string) (b a : DataFrame) : list value :=
  set_inter (set_of (keys_of k b)) (set_of (keys_of k a)).

(** What one turn of the loop appends for [key]. *)
Definition modified_at (k c : list string) (b a : DataFrame) (key : value)
  : list (Series * Series) :=
  match first_with_key k b key, first_with_key k a key with
  | Some rb, Some ra =>
      if has_changes c (out_row k (k ++ c) rb) (out_row k (k ++ c) ra)
      then [(out_row k (k ++ c) rb, out_row k (k ++ c) ra)]
      else []
  | _, _ => []
  end.

Definition modified_pairs (k c : list string) (b a : DataFrame)
  (keys : list value) : list (Series * Series) :=
  flat_map (modified_at k c b a) keys.


(** The rows of [df] whose key no row of [other] bears (lines 52 and 56). *)
Definition unmatched_rows (k : list string) (df other : DataFrame)
  : list Series :=
  filter (fun r => negb (isin (key_of k r) (keys_of k other))) (rows df).

Section Closed_form.

Variable set_iter : list value -> list value.

Definition outputs_of (b a : DataFrame) (k c : list string) : Outputs :=
  let pairs := modified_pairs k c b a (set_iter (common_keys k b a)) in
  mkOutputs
    (mkDataFrame (k ++ c) (map (out_row k (k ++ c)) (unmatched_rows k b a)))
    (mkDataFrame (k ++ c) (map (out_row k (k ++ c)) (unmatched_rows k a b)))
    (frame_or_empty (map fst pairs) (k ++ c))
    (frame_or_empty (map snd pairs) (k ++ c)).

End Closed_form.

(** ** Notions of the specification and of the statements below *)

(** The preconditions of section 4.1 of the specification, in its words:
    both selections non-empty and within both tables' columns, and the two
    tables' column sets equal. *)
Definition spec_preconditions (b a : DataFrame) (k c : list string) : bool :=
  negb (Nat.eqb (List.length k) 0)
  && forallb (fun x => mem x (columns b)) k
  && forallb (fun x => mem x (columns a)) k
  && negb (Nat.eqb (List.length c) 0)
  && forallb (fun x => mem x (columns b)) c
  && forallb (fun x => mem x (columns a)) c
  && forallb (fun x => mem x (columns a)) (columns b)
  && forallb (fun x => mem x (columns b)) (columns a).

(** The column list section 4.2 of the specification words: the key columns,
    then the compare columns not already included. *)
Definition spec_columns (k c : list string) : list string :=
  k ++ filter (fun x => negb (mem x k)) c.

(** [df'] is [df] with the composite keys written under [_key] and nothing
    else touched: same row labels in the same order, same cells in every
    other column, the column list extended by [_key] when it was not there. *)
Definition key_column_written (k : list string) (df df' : DataFrame) : Prop :=
  map name (rows df') = map name (rows df) /\
  column df' KEY = map (fun r => VStr (composite_key k r)) (rows df) /\
  (forall col, col <> KEY -> column df' col = column df col) /\
  columns df' = (if mem KEY (columns df) then columns df
                 else columns df ++ [KEY]).

(** Some row of [df] has composite key [s]. *)
Definition bears_key (k : list string) (df : DataFrame) (s : string) : bool :=
  existsb (fun r => String.eqb (composite_key k r) s) (rows df).

(** The text holds no ['|']. *)
Fixpoint bar_free (s : string) : bool :=
  match s with
  | EmptyString => true
  | String ch s' => negb (Ascii.eqb ch "|") && bar_free s'
  end.

Definition exactly_one (P Q R : Prop) : Prop :=
  (P /\ ~ Q /\ ~ R) \/ (~ P /\ Q /\ ~ R) \/ (~ P /\ ~ Q /\ R).

(** The row appears in the output table [t]: its index label is among the
    labels of [t]'s rows. *)
Definition reported_in (t : DataFrame) (r : Series) : Prop :=
  In (name r) (map name (rows t)).

(** Some row of the other table bears the row's composite key. *)
Definition matched (k : list string) (other : DataFrame) (r : Series) : Prop :=
  bears_key k other (composite_key k r) = true.

(** A pair with its two sides exchanged. *)
Definition swap_pair (p : Series * Series) : Series * Series :=
  (snd p, fst p).

(** Two rows have the same cells in the columns [cols]. *)
Definition agree_on (cols : list string) (rb ra : Series) : Prop :=
  forall col, In col cols -> cell rb col = cell ra col.

(** No key cell of the table is missing: every row holds a value in each key
    column the table has. *)
Definition key_cells_present (k : list string) (df : DataFrame) : Prop :=
  forall r col,
    In r (rows df) -> In col k -> In col (columns df) -> cell r col <> NaN.

(** Some column among [cols] holds a text cell in [df].  pandas stores such a
    column with the object dtype, so a row read from these columns keeps
    every cell as stored. *)
Definition has_text (cols : list string) (df : DataFrame) : Prop :=
  exists col r s, In col cols /\ In r (rows df) /\ cell r col = VStr s.

(** ** Reading an uploaded file ([read_file], lines 33-39) *)

(** What the loader is handed: a name and the bytes behind it. *)
Record UploadedFile : Type := mkUploadedFile {
  file_name : string;
  file_bytes : list ascii
}.

(** [s.endswith(suffix)]: some tail of [s] is [suffix]. *)
Fixpoint endswith (s suffix : string) : bool :=
  if String.eqb s suffix then true
  else match s with
       | EmptyString => false
       | String _ s' => endswith s' suffix
       end.

Section Loader.

(** What a pandas reader gives for a file, and the two readers. *)
Variable Parsed : Type.
Variable read_csv : UploadedFile -> Parsed.
Variable read_excel : UploadedFile -> Parsed.

(** [read_file]; [None] is Python's [None]. *)
Definition read_file (file : UploadedFile) : option Parsed :=
  if endswith (file_name file) ".csv" then Some (read_csv file)
  else if endswith (file_name file) ".xls" || endswith (file_name file) ".xlsx"
       then Some (read_excel file)
       else None.

End Loader.

Arguments read_file {Parsed} read_csv read_excel file.

(** ** The report ([create_excel_output], lines 86-118)

    A sheet is modelled by the cells written to it, row by row; a workbook
    by its sheets in the order they are written. *)

Definition Sheet : Type := list (list (option value)).

Definition Workbook : Type := list (string * Sheet).

(** A cell as [to_excel] writes it: a missing value leaves the cell empty. *)
Definition written (v : value) : option value :=
  if value_eqb v NaN then None else Some v.

Definition written_cells (r : Series) : list (option value) :=
  map (fun it => written (snd it)) (items r).

(** [df.empty]: no rows or no columns. *)
Definition empty (df : DataFrame) : bool :=
  match columns df, rows df with
  | [], _ => true
  | _, [] => true
  | _ :: _, _ :: _ => false
  end.

(** [df.to_excel(writer, sheet_name=..., index=False)]: the header row, then
    one row of cells per row of the table. *)
Definition to_excel (df : DataFrame) : Sheet :=
  map (fun col => Some (VStr col)) (columns df)
  :: map written_cells (rows df).

(** [pd.DataFrame([text]).to_excel(..., index=False, header=False)] *)
Definition placeholder (text : string) : Sheet := [[Some (VStr text)]].

(** Lines 106-110: a copy whose columns are renamed to [f"{col}{suffix}"]. *)
Definition rename_columns (suffix : string) (df : DataFrame) : DataFrame :=
  mkDataFrame
    (map (fun col => (col ++ suffix)%string) (columns df))
    (map (fun r =>
            mkSeries (name r)
              (map (fun it => ((fst it ++ suffix)%string, snd it)) (items r)))
         (rows df)).

(** [df.index] *)
Definition index (df : DataFrame) : list Z := map name (rows df).

Fixpoint same_index (l l' : list Z) : bool :=
  match l, l' with
  | [], [] => true
  | x :: l, y :: l' => Z.eqb x y && same_index l l'
  | _, _ => false
  end.

(** [index.is_unique] *)
Fixpoint is_unique (l : list Z) : bool :=
  match l with
  | [] => true
  | x :: l' => negb (existsb (Z.eqb x) l') && is_unique l'
  end.

(** The first row of [df] labelled [l]. *)
Definition row_labelled (df : DataFrame) (l : Z) : option Series :=
  find (fun r => Z.eqb (name r) l) (rows df).

(** [df.reindex(...)] at one label: the row of that label, or a row of
    missing values. *)
Definition reindexed (df : DataFrame) (l : Z) : list (string * value) :=
  match row_labelled df l with
  | Some r => items r
  | None => map (fun col => (col, NaN)) (columns df)
  end.

Section Report.

(** The order in which pandas lists the union of two different indexes. *)
Variable index_union : list Z -> list Z -> list Z.

(** [pd.concat([x, y], axis=1)]: the columns of [x] followed by those of
    [y], the rows joined on their index labels.  Two equal indexes are kept
    as they are; otherwise each table is reindexed to the union of the two,
    which pandas refuses (InvalidIndexError, here [None]) unless both
    indexes are free of duplicates. *)
Definition concat_columns (x y : DataFrame) : option DataFrame :=
  if same_index (index x) (index y)
  then Some (mkDataFrame (columns x ++ columns y)
               (map (fun p => mkSeries (name (fst p))
                                (items (fst p) ++ items (snd p)))
                    (combine (rows x) (rows y))))
  else if is_unique (index x) && is_unique (index y)
       then Some (mkDataFrame (columns x ++ columns y)
                    (map (fun l => mkSeries l (reindexed x l ++ reindexed y l))
                         (index_union (index x) (index y))))
       else None.

(** What [create_excel_output] leaves: the workbook, or the exception raised
    while the Modified sheet is put together. *)
Inductive Export : Type :=
| Exported (book : Workbook)
| InvalidIndexError.

Definition create_excel_output
  (deleted added modified_before modified_after : DataFrame) : Export :=
  let deleted_sheet :=
    if negb (empty deleted) then to_excel deleted
    else placeholder "No deleted rows" in
  let added_sheet :=
    if negb (empty added) then to_excel added
    else placeholder "No added rows" in
  if negb (empty modified_before)
  then
    let modified_before_renamed := rename_columns " (Before)" modified_before in
    let modified_after_renamed := rename_columns " (After)" modified_after in
    match concat_columns modified_before_renamed modified_after_renamed with
    | Some modified_combined =>
        Exported [("Deleted", deleted_sheet); ("Added", added_sheet);
                  ("Modified", to_excel modified_combined)]
    | None => InvalidIndexError
    end
  else
    Exported [("Deleted", deleted_sheet); ("Added", added_sheet);
              ("Modified", placeholder "No modified rows")].

(** The cells the Modified sheet shows for label [l] on the side of the
    table [df]: those of the row of that label, or as many empty cells as
    [df] has columns. *)
Definition beside (df : DataFrame) (l : Z) : list (option value) :=
  match row_labelled df l with
  | Some r => written_cells r
  | None => map (fun _ => None) (columns df)
  end.

(** The header row of the Modified sheet. *)
Definition modified_header (modified_before modified_after : DataFrame)
  : list (option value) :=
  map (fun col => Some (VStr (col ++ " (Before)")%string))
      (columns modified_before)
  ++ map (fun col => Some (VStr (col ++ " (After)")%string))
         (columns modified_after).

End Report.

(** ** The page ([main.py], lines 145-285)

    One run of the script once both files are loaded, as a function of the
    two tables and of what the widgets return. *)

(** [set(df_before.columns) == set(df_after.columns)] *)
Definition same_columns (df_before df_after : DataFrame) : bool :=
  forallb (fun col => mem col (columns df_after)) (columns df_before)
  && forallb (fun col => mem col (columns df_before)) (columns df_after).

(** [set(x) - set(y)] *)
Definition only_in (x y : list string) : list string :=
  nodup string_dec (filter (fun col => negb (mem col y)) x).

(** Line 196. *)
Definition available_compare_cols (df_before : DataFrame)
  (key_columns : list string) : list string :=
  filter (fun col => negb (mem col key_columns)) (columns df_before).

Record Widgets : Type := mkWidgets {
  layout_confirmed : bool;
  key_columns : list string;
  compare_columns : list string;
  compare_clicked : bool
}.

(** The three metrics of lines 222-226 and whether line 248 is shown. *)
Record Summary : Type := mkSummary {
  deleted_rows : nat;
  added_rows : nat;
  modified_rows : nat;
  no_differences : bool
}.

(** Where a run of the script ends. *)
Inductive Page : Type :=
| LayoutFailed (only_in_before only_in_after : list string)
| ConfirmLayout
| SelectIdentifiers
| SelectCompareColumns
| ReadyToCompare
| ComparisonShown (summary : Summary) (book : Workbook)
| ErrorShown.

(** [df.copy()] *)
Definition copy (df : DataFrame) : DataFrame := df.

Section Script.

Variable set_iter : list value -> list value.
Variable index_union : list Z -> list Z -> list Z.

Definition compare_page (df_before df_after : DataFrame) (w : Widgets)
  : Page :=
  if same_columns df_before df_after
  then
    if layout_confirmed w
    then
      match key_columns w with
      | _ :: _ =>
          match compare_columns w with
          | _ :: _ =>
              if compare_clicked w
              then
                match snd (compare_dataframes set_iter
                             (copy df_before) (copy df_after)
                             (key_columns w) (compare_columns w)) with
                | Ok o =>
                    match create_excel_output index_union
                            (deleted o) (added o)
                            (modified_before_df o) (modified_after_df o) with
                    | Exported book =>
                        ComparisonShown
                          (mkSummary
                             (List.length (rows (deleted o)))
                             (List.length (rows (added o)))
                             (List.length (rows (modified_before_df o)))
                             (empty (deleted o) && empty (added o)
                              && empty (modified_before_df o)))
                          book
                    | InvalidIndexError => ErrorShown
                    end
                | Err _ => ErrorShown
                end
              else ReadyToCompare
          | [] => SelectCompareColumns
          end
      | [] => SelectIdentifiers
      end
    else ConfirmLayout
  else LayoutFailed (only_in (columns df_before) (columns df_after))
                    (only_in (columns df_after) (columns df_before)).

End Script.

(** ** Tables to run the engine on *)

Definition ex_before : DataFrame :=
  table ["id"; "name"; "val"]
        [[VInt 1; VStr "A"; VInt 10]; [VInt 2; VStr "B"; VInt 20]].

Definition ex_after : DataFrame :=
  table ["id"; "name"; "val"]
        [[VInt 1; VStr "A"; VInt 99]; [VInt 3; VStr "C"; VInt 30]].

Definition ex_outputs : Outputs :=
  mkOutputs
    (mkDataFrame ["id"; "name"; "val"]
       [mkSeries 1 [("id", VInt 2); ("name", VStr "B"); ("val", VInt 20)]])
    (mkDataFrame ["id"; "name"; "val"]
       [mkSeries 1 [("id", VInt 3); ("name", VStr "C"); ("val", VInt 30)]])
    (mkDataFrame ["id"; "name"; "val"]
       [mkSeries 0 [("id", VInt 1); ("name", VStr "A"); ("val", VInt 10)]])
    (mkDataFrame ["id"; "name"; "val"]
       [mkSeries 0 [("id", VInt 1); ("name", VStr "A"); ("val", VInt 99)]]).

(** A before table with one column more than [ex_after]. *)
Definition wide_before : DataFrame :=
  table ["id"; "name"; "val"; "note"]
        [[VInt 1; VStr "A"; VInt 10; VStr "n"]].

Definition overlap_before : DataFrame :=
  table ["id"; "val"] [[VInt 1; VInt 10]].

Definition overlap_after : DataFrame :=
  table ["id"; "val"] [[VInt 2; VInt 20]].

Definition stock_before : DataFrame :=
  table ["sku"; "qty"; "bin"]
        [[VStr "a1"; VInt 5; VStr "north"]; [VStr "b2"; VInt 7; VStr "south"]].

Definition stock_after : DataFrame :=
  table ["sku"; "qty"; "bin"]
        [[VStr "a1"; VStr "5"; VStr "north"]; [VStr "b2"; VInt 8; VStr "south"]].

Definition stock_outputs : Outputs :=
  mkOutputs
    (mkDataFrame ["sku"; "qty"; "bin"] [])
    (mkDataFrame ["sku"; "qty"; "bin"] [])
    (mkDataFrame ["sku"; "qty"; "bin"]
       [mkSeries 1 [("sku", VStr "b2"); ("qty", VInt 7); ("bin", VStr "south")]])
    (mkDataFrame ["sku"; "qty"; "bin"]
       [mkSeries 1 [("sku", VStr "b2"); ("qty", VInt 8); ("bin", VStr "south")]]).

Definition tagged_before : DataFrame :=
  table ["id"; "_key"] [[VInt 7; VStr "a"]; [VInt 5; VStr "old"]].

Definition tagged_after : DataFrame :=
  table ["id"; "_key"] [[VInt 7; VStr "b"]; [VInt 6; VStr "new"]].

Definition staff_before : DataFrame :=
  table ["dept"; "empId"; "pay"]
        [[VStr "Sales"; VStr "7"; VInt 100]; [VStr "A||B"; VStr "C"; VInt 1]].

Definition staff_after : DataFrame :=
  table ["dept"; "empId"; "pay"]
        [[VStr "Ops"; VStr "7"; VInt 100]; [VStr "A"; VStr "B||C"; VInt 2]].

(** Two before rows and two after rows bear the key [k1]; only the first of
    each side is compared. *)
Definition dup_before : DataFrame :=
  table ["id"; "val"]
        [[VStr "k1"; VInt 1]; [VStr "k1"; VInt 2]; [VStr "k2"; VInt 3];
         [VStr "k3"; VInt 4]].

Definition dup_after : DataFrame :=
  table ["id"; "val"]
        [[VStr "k1"; VInt 9]; [VStr "k1"; VInt 2]; [VStr "k2"; VInt 3];
         [VStr "k4"; VInt 5]].

Definition dup_outputs : Outputs :=
  mkOutputs
    (mkDataFrame ["id"; "val"] [mkSeries 3 [("id", VStr "k3"); ("val", VInt 4)]])
    (mkDataFrame ["id"; "val"] [mkSeries 3 [("id", VStr "k4"); ("val", VInt 5)]])
    (mkDataFrame ["id"; "val"] [mkSeries 0 [("id", VStr "k1"); ("val", VInt 1)]])
    (mkDataFrame ["id"; "val"] [mkSeries 0 [("id", VStr "k1"); ("val", VInt 9)]]).

(** An after file without rows. *)
Definition no_rows_after : DataFrame := table ["id"; "name"; "val"] [].

Definition no_rows_outputs : Outputs :=
  mkOutputs
    (mkDataFrame ["id"; "name"; "val"]
       [mkSeries 0 [("id", VInt 1); ("name", VStr "A"); ("val", VInt 10)];
        mkSeries 1 [("id", VInt 2); ("name", VStr "B"); ("val", VInt 20)]])
    (mkDataFrame ["id"; "name"; "val"] [])
    (mkDataFrame ["id"; "name"; "val"] [])
    (mkDataFrame ["id"; "name"; "val"] []).

(** Two files that differ only in a column that is not selected. *)
Definition noted_before : DataFrame :=
  table ["id"; "val"; "note"]
        [[VInt 1; VInt 10; VStr "draft"]; [VInt 2; VInt 20; VStr "draft"]].

Definition noted_after : DataFrame :=
  table ["id"; "val"; "note"]
        [[VInt 1; VInt 10; VStr "final"]; [VInt 2; VInt 20; VStr "final"]].

Definition nothing_reported : Outputs :=
  mkOutputs (mkDataFrame ["id"; "val"] []) (mkDataFrame ["id"; "val"] [])
            (mkDataFrame ["id"; "val"] []) (mkDataFrame ["id"; "val"] []).

(** A record that changes and moves up one line, the line above it being
    removed. *)
Definition moved_before : DataFrame :=
  table ["id"; "val"] [[VStr "a"; VInt 1]; [VStr "b"; VInt 2]].

Definition moved_after : DataFrame :=
  table ["id"; "val"] [[VStr "b"; VInt 3]].

Definition moved_outputs : Outputs :=
  mkOutputs
    (mkDataFrame ["id"; "val"] [mkSeries 0 [("id", VStr "a"); ("val", VInt 1)]])
    (mkDataFrame ["id"; "val"] [])
    (mkDataFrame ["id"; "val"] [mkSeries 1 [("id", VStr "b"); ("val", VInt 2)]])
    (mkDataFrame ["id"; "val"] [mkSeries 0 [("id", VStr "b"); ("val", VInt 3)]]).

(** A union order to run the report with: the labels of the first index,
    then the new labels of the second. *)
Definition union_first_seen (l l' : list Z) : list Z :=
  l ++ filter (fun x => negb (existsb (Z.eqb x) l)) l'.

(** The widgets once everything is picked and the button is pressed. *)
Definition picked (k c : list string) : Widgets := mkWidgets true k c true.

(** * Properties *)

(** ** Cells, rows and column selection *)

Lemma value_eqb_eq (x y : value) : value_eqb x y = true <-> x = y.
Proof.
  unfold value_eqb. destruct (value_eq_dec x y); split; congruence.
Qed.

Lemma value_eqb_refl (x : value) : value_eqb x x = true.
Proof. apply value_eqb_eq. reflexivity. Qed.

Lemma mem_In (c : string) (l : list string) : mem c l = true <-> In c l.
Proof.
  unfold mem. rewrite existsb_exists. split.
  - intros [x [Hin Heq]]. apply String.eqb_eq in Heq. subst. exact Hin.
  - intros Hin. exists c. split; [exact Hin | apply String.eqb_refl].
Qed.

Lemma isin_In (v : value) (vs : list value) : isin v vs = true <-> In v vs.
Proof.
  unfold isin. rewrite existsb_exists. split.
  - intros [x [Hin Heq]]. apply value_eqb_eq in Heq. subst. exact Hin.
  - intros Hin. exists v. split; [exact Hin | apply value_eqb_refl].
Qed.

Lemma lookup_replace (c : string) (v : value) (l : list (string * value)) :
  lookup c l <> None ->
  lookup c (map (fun it => if String.eqb (fst it) c then (c, v) else it) l)
  = Some v.
Proof.
  induction l as [| [c' v'] l IH]; simpl; intros H.
  - congruence.
  - destruct (String.eqb c' c) eqn:E; simpl.
    + rewrite String.eqb_refl. reflexivity.
    + rewrite E. apply IH. exact H.
Qed.

Lemma lookup_replace_other (c c' : string) (v : value)
  (l : list (string * value)) :
  c' <> c ->
  lookup c' (map (fun it => if String.eqb (fst it) c then (c, v) else it) l)
  = lookup c' l.
Proof.
  intros Hne. induction l as [| [d w] l IH]; simpl.
  - reflexivity.
  - destruct (String.eqb d c) eqn:E; simpl.
    + apply String.eqb_eq in E. subst d.
      destruct (String.eqb c c') eqn:E'.
      * apply String.eqb_eq in E'. congruence.
      * exact IH.
    + destruct (String.eqb d c'); [reflexivity | exact IH].
Qed.

Lemma lookup_app (c : string) (l l' : list (string * value)) :
  lookup c (l ++ l') =
  match lookup c l with Some v => Some v | None => lookup c l' end.
Proof.
  induction l as [| [d w] l IH]; simpl.
  - reflexivity.
  - destruct (String.eqb d c); [reflexivity | exact IH].
Qed.

Lemma cell_set_item_same (c : string) (v : value) (r : Series) :
  cell (set_item c v r) c = v.
Proof.
  unfold cell, set_item. simpl.
  destruct (lookup c (items r)) eqn:E.
  - rewrite lookup_replace; [reflexivity | congruence].
  - rewrite lookup_app, E. simpl. rewrite String.eqb_refl. reflexivity.
Qed.

Lemma cell_set_item_other (c c' : string) (v : value) (r : Series) :
  c' <> c -> cell (set_item c v r) c' = cell r c'.
Proof.
  intros Hne. unfold cell, set_item. simpl.
  destruct (lookup c (items r)) eqn:E.
  - rewrite lookup_replace_other by exact Hne. reflexivity.
  - rewrite lookup_app. destruct (lookup c' (items r)); [reflexivity |].
    simpl. destruct (String.eqb c c') eqn:E'.
    + apply String.eqb_eq in E'. congruence.
    + reflexivity.
Qed.

Lemma lookup_tabulate (f : string -> value) (c : string) (cols : list string) :
  In c cols -> lookup c (map (fun d => (d, f d)) cols) = Some (f c).
Proof.
  induction cols as [| d cols IH]; simpl; intros Hin.
  - contradiction.
  - destruct (String.eqb d c) eqn:E.
    + apply String.eqb_eq in E. subst. reflexivity.
    + destruct Hin as [-> | Hin].
      * rewrite String.eqb_refl in E. discriminate.
      * apply IH. exact Hin.
Qed.

Lemma cell_select (cols : list string) (r : Series) (c : string) :
  In c cols -> cell (select cols r) c = cell r c.
Proof.
  intros Hin. unfold cell at 1. unfold select. simpl.
  rewrite (lookup_tabulate (fun d => cell r d)) by exact Hin. reflexivity.
Qed.

Lemma select_ext (cols : list string) (r r' : Series) :
  name r = name r' ->
  (forall c, In c cols -> cell r c = cell r' c) ->
  select cols r = select cols r'.
Proof.
  intros Hn Hc. unfold select. rewrite Hn. f_equal.
  apply map_ext_in. intros c Hin. rewrite (Hc c Hin). reflexivity.
Qed.

Lemma select_inj_cells (cols : list string) (r r' : Series) :
  select cols r = select cols r' ->
  forall c, In c cols -> cell r c = cell r' c.
Proof.
  intros Heq c Hin.
  rewrite <- (cell_select cols r c Hin), <- (cell_select cols r' c Hin).
  rewrite Heq. reflexivity.
Qed.

Lemma name_keyed (k : list string) (r : Series) : name (keyed k r) = name r.
Proof. reflexivity. Qed.

Lemma cell_keyed_key (k : list string) (r : Series) :
  cell (keyed k r) KEY = key_of k r.
Proof. apply cell_set_item_same. Qed.

Lemma cell_keyed_other (k : list string) (r : Series) (c : string) :
  c <> KEY -> cell (keyed k r) c = cell r c.
Proof. intros H. apply cell_set_item_other. exact H. Qed.

Lemma out_row_plain (k cols : list string) (r : Series) :
  ~ In KEY cols -> out_row k cols r = select cols r.
Proof.
  intros Hk. apply select_ext; [reflexivity |].
  intros c Hin. apply cell_keyed_other. intros ->. exact (Hk Hin).
Qed.

Lemma name_out_row (k cols : list string) (r : Series) :
  name (out_row k cols r) = name r.
Proof. reflexivity. Qed.

Lemma composite_key_ext (k : list string) (r r' : Series) :
  (forall c, In c k -> cell r c = cell r' c) ->
  composite_key k r = composite_key k r'.
Proof.
  intros H. unfold composite_key. f_equal.
  apply map_ext_in. intros c Hin. rewrite (H c Hin). reflexivity.
Qed.

(** ** Column lookup: when it raises *)

Lemma resolves_incl (df : DataFrame) (cols : list string) :
  resolves df cols = true <-> incl cols (columns df).
Proof.
  unfold resolves, incl. rewrite forallb_forall. split; intros H c Hin.
  - apply mem_In. apply H. exact Hin.
  - apply mem_In. apply H. exact Hin.
Qed.

Lemma missing_nil (df : DataFrame) (cols : list string) :
  filter (fun c => negb (mem c (columns df))) cols = [] <->
  resolves df cols = true.
Proof.
  unfold resolves. induction cols as [| c cols IH]; simpl.
  - tauto.
  - destruct (mem c (columns df)); simpl.
    + exact IH.
    + split; discriminate.
Qed.

Lemma getitem_columns_ok (df : DataFrame) (cols : list string) :
  resolves df cols = true ->
  getitem_columns df cols = Ok (mkDataFrame cols (map (select cols) (rows df))).
Proof.
  intros H. unfold getitem_columns.
  rewrite (proj2 (missing_nil df cols) H). reflexivity.
Qed.

Lemma getitem_columns_err (df : DataFrame) (cols : list string) :
  resolves df cols = false ->
  exists missing, getitem_columns df cols = Err (KeyError missing).
Proof.
  intros H. unfold getitem_columns.
  destruct (filter (fun c => negb (mem c (columns df))) cols) as [| m ms] eqn:E.
  - apply missing_nil in E. congruence.
  - exists (m :: ms). reflexivity.
Qed.

Lemma composite_keys_ok (df : DataFrame) (k : list string) :
  resolves df k = true -> composite_keys df k = Ok (keys_of k df).
Proof.
  intros H. unfold composite_keys.
  rewrite getitem_columns_ok by exact H. simpl.
  unfold agg_join, astype_str, keys_of. simpl.
  rewrite !map_map. f_equal. apply map_ext. intros r.
  unfold key_of, composite_key. simpl. rewrite !map_map. reflexivity.
Qed.

Lemma composite_keys_err (df : DataFrame) (k : list string) :
  resolves df k = false ->
  exists missing, composite_keys df k = Err (KeyError missing).
Proof.
  intros H. unfold composite_keys.
  destruct (getitem_columns_err df k H) as [m Hm]. rewrite Hm.
  exists m. reflexivity.
Qed.

(** ** The tables once the key column is written *)

Lemma combine_map_self {A B : Type} (f : A -> B) (l : list A) :
  combine l (map f l) = map (fun x => (x, f x)) l.
Proof.
  induction l as [| x l IH]; simpl; [reflexivity | rewrite IH; reflexivity].
Qed.

Lemma rows_with_key (k : list string) (df : DataFrame) :
  rows (with_key k df) = map (keyed k) (rows df).
Proof.
  unfold with_key, setitem, keys_of. simpl.
  rewrite combine_map_self, map_map. reflexivity.
Qed.

Lemma columns_with_key (k : list string) (df : DataFrame) :
  columns (with_key k df) =
  if mem KEY (columns df) then columns df else columns df ++ [KEY].
Proof. reflexivity. Qed.

Lemma column_with_key (k : list string) (df : DataFrame) :
  column (with_key k df) KEY = keys_of k df.
Proof.
  unfold column. rewrite rows_with_key, map_map. unfold keys_of.
  apply map_ext. intros r. apply cell_keyed_key.
Qed.

Lemma column_with_key_other (k : list string) (df : DataFrame) (c : string) :
  c <> KEY -> column (with_key k df) c = column df c.
Proof.
  intros H. unfold column. rewrite rows_with_key, map_map.
  apply map_ext. intros r. apply cell_keyed_other. exact H.
Qed.

Lemma In_columns_with_key (k : list string) (df : DataFrame) (c : string) :
  In c (columns (with_key k df)) <-> c = KEY \/ In c (columns df).
Proof.
  rewrite columns_with_key. destruct (mem KEY (columns df)) eqn:E.
  - apply mem_In in E. split; [tauto |]. intros [-> | H]; assumption.
  - rewrite in_app_iff. simpl. split; intros H; intuition congruence.
Qed.

Lemma resolves_with_key (k : list string) (df : DataFrame) (cols : list string) :
  resolves (with_key k df) cols = true <-> incl cols (KEY :: columns df).
Proof.
  rewrite resolves_incl. unfold incl. split; intros H c Hin.
  - specialize (H c Hin). apply In_columns_with_key in H.
    simpl. destruct H as [-> | H]; [left | right]; auto.
  - apply In_columns_with_key. specialize (H c Hin). simpl in H.
    destruct H as [<- | H]; [left | right]; auto.
Qed.

Lemma filter_map_comm {A B : Type} (f : A -> B) (p : B -> bool) (l : list A) :
  filter p (map f l) = map f (filter (fun x => p (f x)) l).
Proof.
  induction l as [| x l IH]; simpl; [reflexivity |].
  destruct (p (f x)); simpl; rewrite IH; reflexivity.
Qed.

Lemma find_hd_filter {A : Type} (p : A -> bool) (l : list A) :
  find p l = hd_error (filter p l).
Proof.
  induction l as [| x l IH]; simpl; [reflexivity |].
  destruct (p x); [reflexivity | exact IH].
Qed.

Lemma find_In {A : Type} (p : A -> bool) (l : list A) (x : A) :
  In x l -> p x = true -> exists y, find p l = Some y.
Proof.
  intros Hin Hp. destruct (find p l) eqn:E; [eauto |].
  rewrite (find_none p l E x Hin) in Hp. discriminate.
Qed.

(** Lines 66-67 on a keyed table: the first row bearing the key, as
    reported; [IndexError] when no row bears it. *)
Lemma first_row_with_key (k cols : list string) (df : DataFrame) (key : value) :
  resolves (with_key k df) cols = true ->
  first_row (with_key k df) key cols =
  match first_with_key k df key with
  | Some r => Ok (out_row k cols r)
  | None => Err IndexError
  end.
Proof.
  intros H. unfold first_row.
  rewrite getitem_columns_ok by exact H.
  unfold bind, iloc0, first_with_key, getitem_mask. cbn [rows].
  rewrite rows_with_key, filter_map_comm, map_map, find_hd_filter.
  rewrite (filter_ext (fun x => value_eqb (cell (keyed k x) KEY) key)
                      (fun r => value_eqb (key_of k r) key))
    by (intros r; rewrite cell_keyed_key; reflexivity).
  destruct (filter (fun r => value_eqb (key_of k r) key) (rows df));
    reflexivity.
Qed.

Lemma first_with_key_In (k : list string) (df : DataFrame) (key : value)
  (r : Series) :
  first_with_key k df key = Some r -> In r (rows df) /\ key_of k r = key.
Proof.
  unfold first_with_key. intros H. apply find_some in H.
  destruct H as [Hin Heq]. apply value_eqb_eq in Heq. tauto.
Qed.

Lemma first_with_key_exists (k : list string) (df : DataFrame) (key : value) :
  In key (keys_of k df) -> exists r, first_with_key k df key = Some r.
Proof.
  unfold keys_of. rewrite in_map_iff. intros [r [Heq Hin]].
  unfold first_with_key. apply (find_In _ _ r Hin).
  apply value_eqb_eq. exact Heq.
Qed.

(** ** The modification loop in closed form *)

Lemma In_common_keys (k : list string) (b a : DataFrame) (key : value) :
  In key (common_keys k b a) <-> In key (keys_of k b) /\ In key (keys_of k a).
Proof.
  unfold common_keys, set_inter, set_of.
  rewrite filter_In, isin_In, !nodup_In. tauto.
Qed.

Lemma NoDup_common_keys (k : list string) (b a : DataFrame) :
  NoDup (common_keys k b a).
Proof.
  unfold common_keys, set_inter, set_of.
  apply NoDup_filter. apply NoDup_nodup.
Qed.

Lemma modified_loop_closed (k c : list string) (b a : DataFrame) :
  resolves (with_key k b) (k ++ c) = true ->
  resolves (with_key k a) (k ++ c) = true ->
  forall keys mb ma,
    (forall key, In key keys ->
                 In key (keys_of k b) /\ In key (keys_of k a)) ->
    modified_loop (with_key k b) (with_key k a) (k ++ c) c keys mb ma =
    Ok (mb ++ map fst (modified_pairs k c b a keys),
        ma ++ map snd (modified_pairs k c b a keys)).
Proof.
  intros Hb Ha. induction keys as [| key keys IH]; intros mb ma Hkeys.
  - simpl. rewrite !app_nil_r. reflexivity.
  - cbn [modified_loop].
    rewrite (first_row_with_key k (k ++ c) b key Hb).
    rewrite (first_row_with_key k (k ++ c) a key Ha).
    destruct (Hkeys key (or_introl eq_refl)) as [Hkb Hka].
    destruct (first_with_key_exists k b key Hkb) as [rb Hrb].
    destruct (first_with_key_exists k a key Hka) as [ra Hra].
    unfold modified_pairs. cbn [flat_map]. fold (modified_pairs k c b a keys).
    unfold modified_at. rewrite Hrb, Hra. cbn [bind].
    assert (Hrest : forall key', In key' keys ->
              In key' (keys_of k b) /\ In key' (keys_of k a))
      by (intros key' Hin; apply Hkeys; right; exact Hin).
    destruct (has_changes c (out_row k (k ++ c) rb) (out_row k (k ++ c) ra)).
    + rewrite (IH _ _ Hrest). cbn [map fst snd app].
      rewrite <- !app_assoc. reflexivity.
    + rewrite (IH _ _ Hrest). reflexivity.
Qed.

Lemma In_modified_pairs (k c : list string) (b a : DataFrame)
  (keys : list value) (p : Series * Series) :
  In p (modified_pairs k c b a keys) <->
  exists key rb ra,
    In key keys /\
    first_with_key k b key = Some rb /\
    first_with_key k a key = Some ra /\
    has_changes c (out_row k (k ++ c) rb) (out_row k (k ++ c) ra) = true /\
    p = (out_row k (k ++ c) rb, out_row k (k ++ c) ra).
Proof.
  unfold modified_pairs. rewrite in_flat_map. split.
  - intros [key [Hin Hp]]. unfold modified_at in Hp.
    destruct (first_with_key k b key) as [rb |] eqn:Hrb; [| contradiction].
    destruct (first_with_key k a key) as [ra |] eqn:Hra; [| contradiction].
    destruct (has_changes c _ _) eqn:Hch; [| contradiction].
    destruct Hp as [<- | []]. exists key, rb, ra. auto.
  - intros (key & rb & ra & Hin & Hrb & Hra & Hch & ->).
    exists key. split; [exact Hin |].
    unfold modified_at. rewrite Hrb, Hra, Hch. left. reflexivity.
Qed.


(** ** What a run of the engine returns *)

Section Properties.

Variable set_iter : list value -> list value.
Hypothesis set_iter_enumerates : forall l, Permutation (set_iter l) l.

Lemma getitem_unmatched (k cols : list string) (df other : DataFrame) :
  resolves (with_key k df) cols = true ->
  getitem_columns
    (getitem_mask (with_key k df)
       (fun r => negb (isin (cell r KEY) (column (with_key k other) KEY))))
    cols
  = Ok (mkDataFrame cols (map (out_row k cols) (unmatched_rows k df other))).
Proof.
  intros H. rewrite getitem_columns_ok by exact H.
  unfold getitem_mask, unmatched_rows. cbn [rows].
  rewrite rows_with_key, filter_map_comm, map_map, column_with_key.
  rewrite (filter_ext
             (fun x => negb (isin (cell (keyed k x) KEY) (keys_of k other)))
             (fun r => negb (isin (key_of k r) (keys_of k other))))
    by (intros r; rewrite cell_keyed_key; reflexivity).
  reflexivity.
Qed.

Lemma compare_keyed_ok (b a : DataFrame) (k c : list string) :
  resolves (with_key k b) (k ++ c) = true ->
  resolves (with_key k a) (k ++ c) = true ->
  compare_keyed set_iter (with_key k b) (with_key k a) k c
  = Ok (outputs_of set_iter b a k c).
Proof.
  intros Hb Ha. unfold compare_keyed.
  rewrite (getitem_unmatched k (k ++ c) b a Hb). cbn [bind].
  rewrite (getitem_unmatched k (k ++ c) a b Ha). cbn [bind].
  rewrite !column_with_key. fold (common_keys k b a).
  rewrite (modified_loop_closed k c b a Hb Ha).
  - reflexivity.
  - intros key Hin. apply In_common_keys.
    apply (Permutation_in _ (set_iter_enumerates _)). exact Hin.
Qed.

Lemma compare_dataframes_ok (b a : DataFrame) (k c : list string) :
  resolves b k = true ->
  resolves a k = true ->
  resolves (with_key k b) (k ++ c) = true ->
  resolves (with_key k a) (k ++ c) = true ->
  compare_dataframes set_iter b a k c
  = ((with_key k b, with_key k a), Ok (outputs_of set_iter b a k c)).
Proof.
  intros Hbk Hak Hb Ha. unfold compare_dataframes.
  rewrite (composite_keys_ok b k Hbk), (composite_keys_ok a k Hak).
  fold (with_key k b). fold (with_key k a).
  rewrite (compare_keyed_ok b a k c Hb Ha). reflexivity.
Qed.

Lemma compare_dataframes_err (b a : DataFrame) (k c : list string) :
  resolves b k && resolves a k
  && resolves (with_key k b) (k ++ c) && resolves (with_key k a) (k ++ c)
  = false ->
  exists missing,
    snd (compare_dataframes set_iter b a k c) = Err (KeyError missing).
Proof.
  intros H. unfold compare_dataframes.
  destruct (resolves b k) eqn:Hbk.
  2:{ destruct (composite_keys_err b k Hbk) as [m Hm]. rewrite Hm.
      exists m. reflexivity. }
  rewrite (composite_keys_ok b k Hbk).
  destruct (resolves a k) eqn:Hak.
  2:{ destruct (composite_keys_err a k Hak) as [m Hm]. rewrite Hm.
      exists m. reflexivity. }
  rewrite (composite_keys_ok a k Hak).
  fold (with_key k b). fold (with_key k a). cbn [snd].
  unfold compare_keyed.
  destruct (resolves (with_key k b) (k ++ c)) eqn:Hb.
  2:{ destruct (getitem_columns_err
                  (getitem_mask (with_key k b)
                     (fun r => negb (isin (cell r KEY)
                                       (column (with_key k a) KEY))))
                  (k ++ c) Hb) as [m Hm].
      rewrite Hm. exists m. reflexivity. }
  rewrite (getitem_unmatched k (k ++ c) b a Hb). cbn [bind].
  destruct (resolves (with_key k a) (k ++ c)) eqn:Ha.
  - discriminate.
  - destruct (getitem_columns_err
                (getitem_mask (with_key k a)
                   (fun r => negb (isin (cell r KEY)
                                     (column (with_key k b) KEY))))
                (k ++ c) Ha) as [m Hm].
    rewrite Hm. exists m. reflexivity.
Qed.

(** Whenever the engine returns, its columns resolved, the tables are left
    keyed and the outputs are the closed form. *)
Lemma compare_dataframes_returns (b a : DataFrame) (k c : list string)
  (o : Outputs) :
  snd (compare_dataframes set_iter b a k c) = Ok o ->
  (incl k (columns b) /\ incl k (columns a) /\
   incl (k ++ c) (KEY :: columns b) /\ incl (k ++ c) (KEY :: columns a)) /\
  fst (compare_dataframes set_iter b a k c) = (with_key k b, with_key k a) /\
  o = outputs_of set_iter b a k c.
Proof.
  intros Hrun.
  destruct (resolves b k && resolves a k
            && resolves (with_key k b) (k ++ c)
            && resolves (with_key k a) (k ++ c)) eqn:E.
  - apply andb_prop in E. destruct E as [E Ha].
    apply andb_prop in E. destruct E as [E Hb].
    apply andb_prop in E. destruct E as [Hbk Hak].
    rewrite (compare_dataframes_ok b a k c Hbk Hak Hb Ha) in *.
    cbn [fst snd] in *. split; [| split; [reflexivity | congruence]].
    repeat split.
    + apply resolves_incl. exact Hbk.
    + apply resolves_incl. exact Hak.
    + apply (resolves_with_key k b). exact Hb.
    + apply (resolves_with_key k a). exact Ha.
  - destruct (compare_dataframes_err b a k c E) as [m Hm]. congruence.
Qed.

(** ** Failure: what the engine checks (claim C1) *)

Lemma incl_selection (k c cols : list string) :
  incl k cols -> incl c (KEY :: cols) -> incl (k ++ c) (KEY :: cols).
Proof.
  intros Hk Hc. apply incl_app; [| exact Hc].
  apply incl_tl. exact Hk.
Qed.

(** C1, as the code has it.  The engine validates nothing itself.  Take two
    tables that have rows and no missing key cell, and at least one key
    column.  A call raises, with the [KeyError] of the column lookup and
    before any output table exists, whenever a key column is not a column of
    one of the tables, or a compare column is neither a column of both tables
    nor the engine's own [_key]; and a call in which every selected column is
    found and no column is named twice returns the four tables, whatever
    else the selection and the tables' layouts are. *)
Theorem engine_raises_iff_column_missing (b a : DataFrame) (k c : list string) :
  key_cells_present k b -> key_cells_present k a ->
  rows b <> [] -> rows a <> [] -> k <> [] ->
  let found :=
    incl k (columns b) /\ incl k (columns a) /\
    incl c (KEY :: columns b) /\ incl c (KEY :: columns a) in
  (found -> NoDup (k ++ c) ->
   exists o, snd (compare_dataframes set_iter b a k c) = Ok o) /\
  (~ found ->
   exists missing,
     snd (compare_dataframes set_iter b a k c) = Err (KeyError missing)).
Proof.
  intros _ _ _ _ _. cbv zeta. split.
  - intros (Hkb & Hka & Hcb & Hca) _.
    exists (outputs_of set_iter b a k c).
    rewrite compare_dataframes_ok; [reflexivity | | | |].
    + apply resolves_incl. exact Hkb.
    + apply resolves_incl. exact Hka.
    + apply resolves_with_key. apply incl_selection; assumption.
    + apply resolves_with_key. apply incl_selection; assumption.
  - intros Hnot. apply compare_dataframes_err.
    destruct (resolves b k && resolves a k
              && resolves (with_key k b) (k ++ c)
              && resolves (with_key k a) (k ++ c)) eqn:E; [| reflexivity].
    exfalso. apply Hnot.
    apply andb_prop in E. destruct E as [E Ha].
    apply andb_prop in E. destruct E as [E Hb].
    apply andb_prop in E. destruct E as [Hbk Hak].
    apply resolves_incl in Hbk. apply resolves_incl in Hak.
    apply resolves_with_key in Hb. apply resolves_with_key in Ha.
    repeat split; try assumption.
    + intros x Hx. apply Hb. apply in_or_app. right. exact Hx.
    + intros x Hx. apply Ha. apply in_or_app. right. exact Hx.
Qed.

(** ** Effect on the tables passed in (claim C2) *)

Lemma with_key_written (k : list string) (df : DataFrame) :
  key_column_written k df (with_key k df).
Proof.
  unfold key_column_written. repeat split.
  - rewrite rows_with_key, map_map. apply map_ext. intros r. reflexivity.
  - apply column_with_key.
  - intros col Hne. apply column_with_key_other. exact Hne.
Qed.

(** C2, as the code has it.  The engine is not free of side effects: when it
    returns, each of the two tables it was given carries a column [_key]
    holding every row's composite key, written in place; the rows, their
    order and labels, and the cells of every other column are as they
    were. *)
Theorem engine_writes_key_column (b a : DataFrame) (k c : list string)
  (o : Outputs) :
  snd (compare_dataframes set_iter b a k c) = Ok o ->
  key_column_written k b (fst (fst (compare_dataframes set_iter b a k c))) /\
  key_column_written k a (snd (fst (compare_dataframes set_iter b a k c))).
Proof.
  intros Hrun.
  destruct (compare_dataframes_returns b a k c o Hrun) as (_ & Hst & _).
  rewrite Hst. cbn [fst snd]. split; apply with_key_written.
Qed.

(** ** Columns of the output tables (claim C3) *)

Lemma rows_frame_or_empty (l : list Series) (cols : list string) :
  rows (frame_or_empty l cols) = l.
Proof. destruct l; reflexivity. Qed.

Lemma columns_frame_or_empty (l : list Series) (cols : list string) :
  (forall r, In r l -> map fst (items r) = cols) ->
  columns (frame_or_empty l cols) = cols.
Proof.
  destruct l as [| r l]; intros H; simpl.
  - reflexivity.
  - apply H. left. reflexivity.
Qed.

Lemma labels_out_row (k cols : list string) (r : Series) :
  map fst (items (out_row k cols r)) = cols.
Proof.
  unfold out_row, select. simpl. rewrite map_map. simpl. apply map_id.
Qed.

Lemma columns_modified (b a : DataFrame) (k c : list string)
  (keys : list value) :
  columns (frame_or_empty (map fst (modified_pairs k c b a keys)) (k ++ c))
  = k ++ c /\
  columns (frame_or_empty (map snd (modified_pairs k c b a keys)) (k ++ c))
  = k ++ c.
Proof.
  split; apply columns_frame_or_empty; intros r Hr;
    apply in_map_iff in Hr; destruct Hr as [p [<- Hp]];
    apply In_modified_pairs in Hp;
    destruct Hp as (key & rb & ra & _ & _ & _ & _ & ->);
    apply labels_out_row.
Qed.

Lemma spec_columns_disjoint (k c : list string) :
  NoDup (k ++ c) -> spec_columns k c = k ++ c.
Proof.
  intros Hnd. unfold spec_columns. f_equal.
  induction c as [| x c IH]; simpl; [reflexivity |].
  destruct (mem x k) eqn:E.
  - apply mem_In in E. apply NoDup_remove_2 in Hnd.
    exfalso. apply Hnd. apply in_or_app. left. exact E.
  - simpl. f_equal. apply IH. apply NoDup_remove_1 in Hnd. exact Hnd.
Qed.

(** C3, as the code has it.  The column list of each output table is
    [key_columns + compare_columns], whatever other columns the tables have:
    for Deleted and Added always; and when the compare columns do not overlap
    the key columns (no column is named twice), that list is for all four
    tables the union the specification describes, keys first, without
    duplicates. *)
Theorem output_columns (b a : DataFrame) (k c : list string) (o : Outputs) :
  snd (compare_dataframes set_iter b a k c) = Ok o ->
  (columns (deleted o) = k ++ c /\ columns (added o) = k ++ c) /\
  (NoDup (k ++ c) ->
   Forall (fun t => columns t = spec_columns k c)
          [deleted o; added o; modified_before_df o; modified_after_df o] /\
   NoDup (spec_columns k c)).
Proof.
  intros Hrun.
  destruct (compare_dataframes_returns b a k c o Hrun) as (_ & _ & ->).
  split; [split; reflexivity |].
  intros Hnd. rewrite (spec_columns_disjoint k c Hnd). split; [| exact Hnd].
  destruct (columns_modified b a k c (set_iter (common_keys k b a)))
    as [Hmb Hma].
  repeat constructor; assumption.
Qed.

(** ** Rows reported as modified (claim C4) *)

Lemma has_changes_iff (c : list string) (x y : Series) :
  has_changes c x y = true <->
  exists col, In col c /\ str (cell x col) <> str (cell y col).
Proof.
  unfold has_changes. rewrite existsb_exists.
  split; intros [col [Hin H]]; exists col; (split; [exact Hin |]).
  - apply negb_true_iff in H. apply String.eqb_neq. exact H.
  - apply negb_true_iff. apply String.eqb_neq. exact H.
Qed.

Lemma combine_fst_snd {A B : Type} (l : list (A * B)) :
  combine (map fst l) (map snd l) = l.
Proof.
  induction l as [| [x y] l IH]; simpl; [reflexivity | rewrite IH; reflexivity].
Qed.

Lemma modified_rows_combined (b a : DataFrame) (k c : list string) :
  combine (rows (modified_before_df (outputs_of set_iter b a k c)))
          (rows (modified_after_df (outputs_of set_iter b a k c)))
  = modified_pairs k c b a (set_iter (common_keys k b a)).
Proof.
  unfold outputs_of. cbn [modified_before_df modified_after_df].
  rewrite !rows_frame_or_empty. apply combine_fst_snd.
Qed.

Lemma first_with_key_common (k : list string) (b a : DataFrame) (key : value)
  (rb ra : Series) :
  first_with_key k b key = Some rb ->
  first_with_key k a key = Some ra ->
  In key (set_iter (common_keys k b a)).
Proof.
  intros Hb Ha.
  apply (Permutation_in _ (Permutation_sym (set_iter_enumerates _))).
  apply In_common_keys.
  apply first_with_key_In in Hb. apply first_with_key_In in Ha.
  destruct Hb as [Hinb <-]. destruct Ha as [Hina Hka].
  split.
  - unfold keys_of. apply in_map. exact Hinb.
  - rewrite <- Hka. unfold keys_of. apply in_map. exact Hina.
Qed.

Lemma select_same_key (k c : list string) (r r' : Series) :
  select (k ++ c) r = select (k ++ c) r' -> key_of k r = key_of k r'.
Proof.
  intros H. unfold key_of. f_equal. apply composite_key_ext.
  intros col Hin. apply (select_inj_cells _ _ _ H).
  apply in_or_app. left. exact Hin.
Qed.

(** The content of claim C4 on selections that name no column twice and do
    not name the engine's own [_key] (what happens on one that does is shown
    on the tagged tables further down), for tables with a text column among
    the selected ones, whose rows [iloc0] hands back as stored.  Whenever
    [rb] is the first row of the before table and
    [ra] the first row of the after table bearing one composite key, the
    engine reports the pair (row [i] of ModifiedBefore is [rb], row [i] of
    ModifiedAfter is [ra], both under the selected columns) if and only if
    the string forms of [rb] and [ra] differ at some compare column.  So a
    pair whose compared cells all stringify alike, such as the integer 5 and
    the text "5", is never reported. *)
Theorem modified_iff_compared_field_differs (b a : DataFrame)
  (k c : list string) (o : Outputs) :
  snd (compare_dataframes set_iter b a k c) = Ok o ->
  NoDup (k ++ c) ->
  ~ In KEY (k ++ c) ->
  has_text (k ++ c) b ->
  has_text (k ++ c) a ->
  forall key rb ra,
    first_with_key k b key = Some rb ->
    first_with_key k a key = Some ra ->
    (In (select (k ++ c) rb, select (k ++ c) ra)
        (combine (rows (modified_before_df o)) (rows (modified_after_df o)))
     <->
     exists col, In col c /\ str (cell rb col) <> str (cell ra col)).
Proof.
  intros Hrun _ Hkey _ _ key rb ra Hrb Hra.
  destruct (compare_dataframes_returns b a k c o Hrun) as (_ & _ & ->).
  rewrite modified_rows_combined, In_modified_pairs.
  assert (Hcells : forall r col, In col c ->
            cell (out_row k (k ++ c) r) col = cell r col).
  { intros r col Hin. rewrite (out_row_plain k (k ++ c) r Hkey).
    apply cell_select. apply in_or_app. right. exact Hin. }
  split.
  - intros (key' & rb' & ra' & _ & Hrb' & Hra' & Hch & Heq).
    rewrite !(out_row_plain k (k ++ c) _ Hkey) in Heq.
    pose proof (f_equal fst Heq) as Hb. cbn [fst] in Hb.
    assert (key' = key).
    { destruct (first_with_key_In k b key' rb' Hrb') as [_ Hk'].
      destruct (first_with_key_In k b key rb Hrb) as [_ Hk].
      rewrite <- Hk', <- Hk. symmetry.
      apply (select_same_key k c). exact Hb. }
    subst key'. assert (rb' = rb) by congruence. assert (ra' = ra) by congruence.
    subst rb' ra'. apply has_changes_iff in Hch.
    destruct Hch as [col [Hin Hne]]. exists col. split; [exact Hin |].
    rewrite !(Hcells _ col Hin) in Hne. exact Hne.
  - intros [col [Hin Hne]]. exists key, rb, ra.
    split; [apply (first_with_key_common k b a key rb ra Hrb Hra) |].
    split; [exact Hrb |]. split; [exact Hra |]. split.
    + apply has_changes_iff. exists col. split; [exact Hin |].
      rewrite !(Hcells _ col Hin). exact Hne.
    + rewrite !(out_row_plain k (k ++ c) _ Hkey). reflexivity.
Qed.

(** ** Rows reported as deleted and added (claim C5) *)

Lemma isin_bears_key (k : list string) (df : DataFrame) (r : Series) :
  isin (key_of k r) (keys_of k df) = bears_key k df (composite_key k r).
Proof.
  apply eq_true_iff_eq. rewrite isin_In. unfold keys_of, bears_key.
  rewrite in_map_iff, existsb_exists.
  split; intros [r' [H1 H2]]; exists r'.
  - split; [exact H2 |]. apply String.eqb_eq.
    unfold key_of in H1. congruence.
  - split; [| exact H1]. apply String.eqb_eq in H2.
    unfold key_of. congruence.
Qed.

Lemma unmatched_rows_by_key (k : list string) (df other : DataFrame) :
  unmatched_rows k df other =
  filter (fun r => negb (bears_key k other (composite_key k r))) (rows df).
Proof.
  unfold unmatched_rows. apply filter_ext. intros r.
  rewrite isin_bears_key. reflexivity.
Qed.

(** The content of claim C5 on the selections for which the code has it:
    those that do not name the engine's own [_key] (what happens on one that
    does is shown on the tagged tables further down).  Deleted is the rows of the before table whose composite key no
    row of the after table bears, each cut down to the selected columns, in
    the before table's order; Added is the same with the two tables
    exchanged. *)
Theorem deleted_added_rows (b a : DataFrame) (k c : list string) (o : Outputs) :
  snd (compare_dataframes set_iter b a k c) = Ok o ->
  ~ In KEY (k ++ c) ->
  rows (deleted o) =
    map (select (k ++ c))
        (filter (fun r => negb (bears_key k a (composite_key k r))) (rows b)) /\
  rows (added o) =
    map (select (k ++ c))
        (filter (fun r => negb (bears_key k b (composite_key k r))) (rows a)).
Proof.
  intros Hrun Hkey.
  destruct (compare_dataframes_returns b a k c o Hrun) as (_ & _ & ->).
  unfold outputs_of. cbn [deleted added rows].
  rewrite <- !unmatched_rows_by_key.
  split; apply map_ext; intros r; apply out_row_plain; exact Hkey.
Qed.

(** ** Composite keys and matching (claim C6) *)

Lemma split_at_separator (s1 s2 t1 t2 : string) :
  bar_free s1 = true -> bar_free s2 = true ->
  (s1 ++ SEP ++ t1 = s2 ++ SEP ++ t2)%string ->
  s1 = s2 /\ t1 = t2.
Proof.
  revert s2. induction s1 as [| ch s1 IH]; intros s2 H1 H2 Heq.
  - destruct s2 as [| ch2 s2]; simpl in *.
    + injection Heq as Heq. auto.
    + injection Heq as Hch _. subst ch2. simpl in H2. discriminate.
  - destruct s2 as [| ch2 s2]; simpl in *.
    + injection Heq as Hch _. subst ch. simpl in H1. discriminate.
    + injection Heq as Hch Heq. subst ch2.
      apply andb_prop in H1. apply andb_prop in H2.
      destruct (IH s2 (proj2 H1) (proj2 H2) Heq) as [-> ->]. auto.
Qed.

Lemma join_injective (l1 l2 : list string) :
  List.length l1 = List.length l2 ->
  Forall (fun s => bar_free s = true) l1 ->
  Forall (fun s => bar_free s = true) l2 ->
  String.concat SEP l1 = String.concat SEP l2 ->
  l1 = l2.
Proof.
  revert l2. induction l1 as [| x xs IH]; intros [| y ys] Hlen H1 H2 Heq;
    try discriminate.
  - reflexivity.
  - inversion H1 as [| ? ? Hx Hxs]. inversion H2 as [| ? ? Hy Hys]. subst.
    destruct xs as [| x' xs]; destruct ys as [| y' ys]; try discriminate.
    + simpl in Heq. congruence.
    + change (x ++ SEP ++ String.concat SEP (x' :: xs)
              = y ++ SEP ++ String.concat SEP (y' :: ys))%string in Heq.
      destruct (split_at_separator _ _ _ _ Hx Hy Heq) as [-> Ht].
      f_equal. apply IH; auto.
Qed.

Lemma names_out_rows (k cols : list string) (l : list Series) :
  map name (map (out_row k cols) l) = map name l.
Proof. rewrite map_map. apply map_ext. intros r. reflexivity. Qed.

Lemma modified_pair_sources (b a : DataFrame) (k c : list string)
  (keys : list value) (p : Series * Series) :
  In p (modified_pairs k c b a keys) ->
  exists sb sa,
    In sb (rows b) /\ In sa (rows a) /\
    composite_key k sb = composite_key k sa /\
    p = (out_row k (k ++ c) sb, out_row k (k ++ c) sa).
Proof.
  intros Hp. apply In_modified_pairs in Hp.
  destruct Hp as (key & sb & sa & _ & Hb & Ha & _ & ->).
  apply first_with_key_In in Hb. apply first_with_key_In in Ha.
  destruct Hb as [Hinb Hkb]. destruct Ha as [Hina Hka].
  exists sb, sa. repeat split; try assumption.
  unfold key_of in *. congruence.
Qed.

(** C6, as the code has it.  The [_key] the engine writes for a row is the
    row's stringified cells at the key columns, in key-column order, joined
    with "||".  Rows are matched by equality of these keys: the rows
    reported deleted are those of the before table whose key no row of the
    after table bears, and the two rows of every reported pair are, by their
    labels, a row of the before table and a row of the after table with
    equal keys.  Equal keys mean identical stringified key values whenever
    the string forms of the key values hold no ['|']. *)
Theorem composite_key_matching (b a : DataFrame) (k c : list string)
  (o : Outputs) :
  snd (compare_dataframes set_iter b a k c) = Ok o ->
  (column (fst (fst (compare_dataframes set_iter b a k c))) KEY
   = map (fun r => VStr (String.concat "||" (map (fun col => str (cell r col)) k)))
         (rows b) /\
   column (snd (fst (compare_dataframes set_iter b a k c))) KEY
   = map (fun r => VStr (String.concat "||" (map (fun col => str (cell r col)) k)))
         (rows a)) /\
  (map name (rows (deleted o))
   = map name
       (filter (fun r => negb (bears_key k a (composite_key k r))) (rows b)) /\
   forall x y,
     In (x, y)
        (combine (rows (modified_before_df o)) (rows (modified_after_df o))) ->
     exists sb sa,
       In sb (rows b) /\ In sa (rows a) /\
       composite_key k sb = composite_key k sa /\
       name x = name sb /\ name y = name sa) /\
  (forall rb ra,
     (forall col, In col k ->
        bar_free (str (cell rb col)) = true /\
        bar_free (str (cell ra col)) = true) ->
     (composite_key k rb = composite_key k ra <->
      map (fun col => str (cell rb col)) k
      = map (fun col => str (cell ra col)) k)).
Proof.
  intros Hrun.
  destruct (compare_dataframes_returns b a k c o Hrun) as (_ & Hst & ->).
  rewrite Hst. cbn [fst snd]. split; [| split].
  - split; apply column_with_key.
  - split.
    + unfold outputs_of. cbn [deleted rows].
      rewrite names_out_rows, unmatched_rows_by_key. reflexivity.
    + intros x y Hin. rewrite modified_rows_combined in Hin.
      destruct (modified_pair_sources _ _ _ _ _ _ Hin)
        as (sb & sa & Hsb & Hsa & Hkey & Heq).
      exists sb, sa. injection Heq as -> ->.
      split; [exact Hsb |]. split; [exact Hsa |]. split; [exact Hkey |].
      split; reflexivity.
  - intros rb ra Hfree. unfold composite_key. split.
    + apply join_injective.
      * rewrite !length_map. reflexivity.
      * apply Forall_forall. intros s Hs. apply in_map_iff in Hs.
        destruct Hs as [col [<- Hcol]]. apply (Hfree col Hcol).
      * apply Forall_forall. intros s Hs. apply in_map_iff in Hs.
        destruct Hs as [col [<- Hcol]]. apply (Hfree col Hcol).
    + intros ->. reflexivity.
Qed.

(** ** Every row in one class (claim C7) *)

Lemma label_identifies (l : list Series) (r r' : Series) :
  NoDup (map name l) -> In r l -> In r' l -> name r = name r' -> r = r'.
Proof.
  induction l as [| x l IH]; simpl; intros Hnd Hr Hr' Hn; [contradiction |].
  inversion Hnd as [| ? ? Hx Hl]. subst.
  destruct Hr as [-> | Hr]; destruct Hr' as [-> | Hr'].
  - reflexivity.
  - exfalso. apply Hx. rewrite Hn. apply in_map. exact Hr'.
  - exfalso. apply Hx. rewrite <- Hn. apply in_map. exact Hr.
  - apply IH; assumption.
Qed.

Lemma one_class (l : list Series) (m : Series -> bool) (D M : list Z) :
  (forall r, In r l -> (In (name r) D <-> m r = false)) ->
  (forall r, In r l -> In (name r) M -> m r = true) ->
  forall r, In r l ->
    exactly_one (In (name r) D) (In (name r) M)
                (m r = true /\ ~ In (name r) M).
Proof.
  intros HD HM r Hr. unfold exactly_one.
  specialize (HD r Hr). specialize (HM r Hr).
  destruct (m r) eqn:Em.
  - assert (~ In (name r) D) by (intros H; apply HD in H; discriminate).
    destruct (in_dec Z.eq_dec (name r) M) as [Hin | Hout].
    + right. left. tauto.
    + right. right. tauto.
  - left. split; [apply HD; reflexivity |].
    split; [intros H; apply HM in H; discriminate | intros [H _]; discriminate].
Qed.

Lemma reported_deleted_iff (k cols : list string) (df other : DataFrame)
  (r : Series) :
  NoDup (map name (rows df)) -> In r (rows df) ->
  (In (name r) (map name (map (out_row k cols) (unmatched_rows k df other)))
   <-> bears_key k other (composite_key k r) = false).
Proof.
  intros Hnd Hr. rewrite names_out_rows, unmatched_rows_by_key. split.
  - intros H. apply in_map_iff in H. destruct H as [r' [Hn Hin]].
    apply filter_In in Hin. destruct Hin as [Hr' Hm].
    rewrite (label_identifies _ _ _ Hnd Hr Hr' (eq_sym Hn)).
    apply negb_true_iff. exact Hm.
  - intros H. apply in_map. apply filter_In. split; [exact Hr |].
    rewrite H. reflexivity.
Qed.

Lemma bears_key_of_row (k : list string) (df : DataFrame) (r : Series) :
  In r (rows df) -> bears_key k df (composite_key k r) = true.
Proof.
  intros Hin. unfold bears_key. apply existsb_exists.
  exists r. split; [exact Hin | apply String.eqb_refl].
Qed.

Lemma reported_modified_matched (b a : DataFrame) (k c : list string)
  (keys : list value) :
  (NoDup (map name (rows b)) ->
   forall r, In r (rows b) ->
     In (name r) (map name (map fst (modified_pairs k c b a keys))) ->
     bears_key k a (composite_key k r) = true) /\
  (NoDup (map name (rows a)) ->
   forall r, In r (rows a) ->
     In (name r) (map name (map snd (modified_pairs k c b a keys))) ->
     bears_key k b (composite_key k r) = true).
Proof.
  split; intros Hnd r Hr H;
    rewrite map_map in H; apply in_map_iff in H;
    destruct H as [p [Hn Hp]];
    apply modified_pair_sources in Hp;
    destruct Hp as (sb & sa & Hsb & Hsa & Hk & ->); cbn [fst snd] in Hn;
    rewrite name_out_row in Hn.
  - rewrite (label_identifies _ _ _ Hnd Hr Hsb (eq_sym Hn)), Hk.
    apply bears_key_of_row. exact Hsa.
  - rewrite (label_identifies _ _ _ Hnd Hr Hsa (eq_sym Hn)), <- Hk.
    apply bears_key_of_row. exact Hsb.
Qed.

(** C7.  With row labels that identify the rows of each table (as a
    loader's numbering does): every row of the before table is in exactly
    one of three classes - reported in Deleted, reported in ModifiedBefore,
    or matched and reported in neither - and it is in Deleted exactly when
    no row of the after table bears its composite key; the same holds for
    the rows of the after table with Added and ModifiedAfter.  Rows sharing
    a composite key are not excluded. *)
Theorem rows_partition (b a : DataFrame) (k c : list string) (o : Outputs) :
  snd (compare_dataframes set_iter b a k c) = Ok o ->
  NoDup (map name (rows b)) ->
  NoDup (map name (rows a)) ->
  (forall r, In r (rows b) ->
     exactly_one (reported_in (deleted o) r)
                 (reported_in (modified_before_df o) r)
                 (matched k a r /\ ~ reported_in (modified_before_df o) r) /\
     (reported_in (deleted o) r <-> ~ matched k a r)) /\
  (forall r, In r (rows a) ->
     exactly_one (reported_in (added o) r)
                 (reported_in (modified_after_df o) r)
                 (matched k b r /\ ~ reported_in (modified_after_df o) r) /\
     (reported_in (added o) r <-> ~ matched k b r)).
Proof.
  intros Hrun Hb Ha.
  destruct (compare_dataframes_returns b a k c o Hrun) as (_ & _ & ->).
  unfold reported_in, matched, outputs_of.
  cbn [deleted added modified_before_df modified_after_df].
  rewrite !rows_frame_or_empty. cbn [rows].
  destruct (reported_modified_matched b a k c (set_iter (common_keys k b a)))
    as [Hmb Hma].
  split; intros r Hr; split.
  - apply (one_class (rows b)
             (fun r => bears_key k a (composite_key k r))); try assumption.
    + intros r' Hr'. apply reported_deleted_iff; assumption.
    + apply Hmb. exact Hb.
  - rewrite (reported_deleted_iff k (k ++ c) b a r Hb Hr).
    symmetry. apply not_true_iff_false.
  - apply (one_class (rows a)
             (fun r => bears_key k b (composite_key k r))); try assumption.
    + intros r' Hr'. apply reported_deleted_iff; assumption.
    + apply Hma. exact Ha.
  - rewrite (reported_deleted_iff k (k ++ c) a b r Ha Hr).
    symmetry. apply not_true_iff_false.
Qed.

(** ** A table against itself (claim C8) *)

Lemma filter_none {A : Type} (p : A -> bool) (l : list A) :
  (forall x, In x l -> p x = false) -> filter p l = [].
Proof.
  induction l as [| x l IH]; simpl; intros H; [reflexivity |].
  rewrite (H x (or_introl eq_refl)). apply IH.
  intros y Hy. apply H. right. exact Hy.
Qed.

Lemma has_changes_same (c : list string) (x : Series) :
  has_changes c x x = false.
Proof.
  unfold has_changes. induction c as [| col c IH]; simpl; [reflexivity |].
  rewrite String.eqb_refl. exact IH.
Qed.

Lemma modified_pairs_self (t : DataFrame) (k c : list string)
  (keys : list value) :
  modified_pairs k c t t keys = [].
Proof.
  induction keys as [| key keys IH]; simpl; [reflexivity |].
  rewrite IH, app_nil_r. unfold modified_at.
  destruct (first_with_key k t key); [| reflexivity].
  rewrite has_changes_same. reflexivity.
Qed.

(** C8.  Whenever comparing a table with an identical copy of itself
    returns, all four output tables have no rows; and the comparison does
    return for every table that has rows and no missing key cell, and every
    selection of at least one key column and of compare columns among the
    table's columns. *)
Theorem identical_tables_no_differences (t : DataFrame) (k c : list string) :
  (forall o,
     snd (compare_dataframes set_iter t t k c) = Ok o ->
     rows (deleted o) = [] /\
     rows (added o) = [] /\
     rows (modified_before_df o) = [] /\
     rows (modified_after_df o) = []) /\
  (k <> [] ->
   incl k (columns t) ->
   incl c (columns t) ->
   rows t <> [] ->
   key_cells_present k t ->
   exists o, snd (compare_dataframes set_iter t t k c) = Ok o).
Proof.
  split.
  - intros o Hrun.
    destruct (compare_dataframes_returns t t k c o Hrun) as (_ & _ & ->).
    assert (Hnone : unmatched_rows k t t = []).
    { rewrite unmatched_rows_by_key. apply filter_none. intros r Hr.
      rewrite (bears_key_of_row k t r Hr). reflexivity. }
    unfold outputs_of. cbn [deleted added modified_before_df modified_after_df].
    rewrite !rows_frame_or_empty, modified_pairs_self. cbn [rows].
    rewrite Hnone. repeat split.
  - intros _ Hk Hc _ _. exists (outputs_of set_iter t t k c).
    assert (Hcols : resolves (with_key k t) (k ++ c) = true).
    { apply resolves_with_key. apply incl_selection; [exact Hk |].
      apply incl_tl. exact Hc. }
    rewrite compare_dataframes_ok;
      [reflexivity | apply resolves_incl; exact Hk
       | apply resolves_incl; exact Hk | exact Hcols | exact Hcols].
Qed.

(** ** The two Modified tables (claims C9 and C10) *)






End Properties.

(** * Further properties of the engine *)

Section Engine_algebra.

Variable set_iter : list value -> list value.
Hypothesis set_iter_enumerates : forall l, Permutation (set_iter l) l.

(** ** Exchanging the two tables *)

Lemma has_changes_sym (c : list string) (x y : Series) :
  has_changes c x y = has_changes c y x.
Proof.
  unfold has_changes. induction c as [| col c IH]; simpl; [reflexivity |].
  rewrite IH, (String.eqb_sym (str (cell x col))). reflexivity.
Qed.

Lemma modified_at_swap (k c : list string) (b a : DataFrame) (key : value) :
  modified_at k c a b key = map swap_pair (modified_at k c b a key).
Proof.
  unfold modified_at.
  destruct (first_with_key k a key) as [ra |];
    destruct (first_with_key k b key) as [rb |]; try reflexivity.
  rewrite (has_changes_sym c (out_row k (k ++ c) ra)).
  destruct (has_changes c _ _); reflexivity.
Qed.

Lemma modified_pairs_swap (k c : list string) (b a : DataFrame)
  (keys : list value) :
  modified_pairs k c a b keys = map swap_pair (modified_pairs k c b a keys).
Proof.
  unfold modified_pairs. induction keys as [| key keys IH]; simpl.
  - reflexivity.
  - rewrite map_app, IH, modified_at_swap. reflexivity.
Qed.

Lemma common_keys_swap (k : list string) (b a : DataFrame) :
  Permutation (set_iter (common_keys k a b)) (set_iter (common_keys k b a)).
Proof.
  rewrite !set_iter_enumerates.
  apply NoDup_Permutation; try apply NoDup_common_keys.
  intros key. rewrite !In_common_keys. tauto.
Qed.

(** Exchanging the before and the after table exchanges Deleted with Added,
    and turns every modified pair around: the exchanged call returns
    whenever the original one does, its Deleted is the original Added and
    conversely, and its modified pairs are the original pairs with the two
    sides exchanged, up to the order in which the common keys are visited. *)
Theorem swapping_tables_swaps_outputs (b a : DataFrame) (k c : list string)
  (o : Outputs) :
  snd (compare_dataframes set_iter b a k c) = Ok o ->
  exists o',
    snd (compare_dataframes set_iter a b k c) = Ok o' /\
    deleted o' = added o /\
    added o' = deleted o /\
    Permutation
      (combine (rows (modified_before_df o')) (rows (modified_after_df o')))
      (map swap_pair
         (combine (rows (modified_before_df o)) (rows (modified_after_df o)))).
Proof.
  intros Hrun.
  destruct (compare_dataframes_returns set_iter set_iter_enumerates
              b a k c o Hrun) as ((Hkb & Hka & Hb & Ha) & _ & ->).
  exists (outputs_of set_iter a b k c).
  rewrite (compare_dataframes_ok set_iter set_iter_enumerates a b k c);
    try (apply resolves_incl; assumption);
    try (apply resolves_with_key; assumption).
  cbn [snd]. split; [reflexivity |]. split; [reflexivity |].
  split; [reflexivity |].
  rewrite !(modified_rows_combined set_iter).
  rewrite (modified_pairs_swap k c b a).
  apply Permutation_map. unfold modified_pairs.
  apply Permutation_flat_map. apply common_keys_swap.
Qed.

(** ** An empty table *)

Lemma set_iter_nil : set_iter [] = [].
Proof. apply Permutation_nil. apply Permutation_sym, set_iter_enumerates. Qed.

Lemma filter_all {A : Type} (p : A -> bool) (l : list A) :
  (forall x, In x l -> p x = true) -> filter p l = l.
Proof.
  intros H. apply forallb_filter_id. apply forallb_forall. exact H.
Qed.

Lemma common_keys_nil_r (k : list string) (b a : DataFrame) :
  rows a = [] -> common_keys k b a = [].
Proof.
  intros Ha. unfold common_keys, set_inter, keys_of. rewrite Ha. simpl.
  apply filter_none. intros x _. reflexivity.
Qed.

Lemma common_keys_nil_l (k : list string) (b a : DataFrame) :
  rows b = [] -> common_keys k b a = [].
Proof.
  intros Hb. unfold common_keys, set_inter, keys_of. rewrite Hb. reflexivity.
Qed.

(** When the after table has no rows, every row of the before table is
    reported deleted, in the before table's order, and nothing is reported
    added or modified; when the before table has no rows, every row of the
    after table is reported added and nothing else is reported. *)
Theorem empty_table_all_deleted_or_added (b a : DataFrame) (k c : list string)
  (o : Outputs) :
  snd (compare_dataframes set_iter b a k c) = Ok o ->
  (rows a = [] ->
   rows (deleted o) = map (out_row k (k ++ c)) (rows b) /\
   rows (added o) = [] /\
   rows (modified_before_df o) = [] /\ rows (modified_after_df o) = []) /\
  (rows b = [] ->
   rows (added o) = map (out_row k (k ++ c)) (rows a) /\
   rows (deleted o) = [] /\
   rows (modified_before_df o) = [] /\ rows (modified_after_df o) = []).
Proof.
  intros Hrun.
  destruct (compare_dataframes_returns set_iter set_iter_enumerates
              b a k c o Hrun) as (_ & _ & ->).
  unfold outputs_of. cbn [deleted added modified_before_df modified_after_df].
  rewrite !rows_frame_or_empty. cbn [rows].
  split; intros Hnil.
  - rewrite (common_keys_nil_r k b a Hnil), set_iter_nil. simpl.
    unfold unmatched_rows, keys_of. rewrite Hnil. simpl.
    rewrite filter_all by reflexivity. auto.
  - rewrite (common_keys_nil_l k b a Hnil), set_iter_nil. simpl.
    unfold unmatched_rows, keys_of. rewrite Hnil. simpl.
    rewrite filter_all by reflexivity. auto.
Qed.

(** ** Changes outside the selected columns *)

Lemma agree_same_key (k c : list string) (rb ra : Series) :
  agree_on (k ++ c) rb ra -> key_of k rb = key_of k ra.
Proof.
  intros H. unfold key_of. f_equal. apply composite_key_ext.
  intros col Hin. apply H. apply in_or_app. left. exact Hin.
Qed.

Lemma agree_same_keys (k c : list string) (l l' : list Series) :
  Forall2 (agree_on (k ++ c)) l l' -> map (key_of k) l = map (key_of k) l'.
Proof.
  induction 1 as [| rb ra l l' H _ IH]; simpl; [reflexivity |].
  rewrite IH, (agree_same_key k c rb ra H). reflexivity.
Qed.

Lemma find_related {A : Type} (R : A -> A -> Prop) (p : A -> bool)
  (l l' : list A) :
  Forall2 R l l' ->
  (forall x y, R x y -> p x = p y) ->
  match find p l, find p l' with
  | Some x, Some y => R x y
  | None, None => True
  | _, _ => False
  end.
Proof.
  intros HF Hp. induction HF as [| x y l l' Hxy _ IH]; simpl; [exact I |].
  rewrite <- (Hp x y Hxy). destruct (p x); [exact Hxy | exact IH].
Qed.

Lemma cell_out_row (k cols : list string) (r : Series) (col : string) :
  In col cols ->
  cell (out_row k cols r) col
  = if String.eqb col KEY then key_of k r else cell r col.
Proof.
  intros Hin. unfold out_row. rewrite cell_select by exact Hin.
  destruct (String.eqb col KEY) eqn:E.
  - apply String.eqb_eq in E. subst col. apply cell_keyed_key.
  - apply String.eqb_neq in E. apply cell_keyed_other. exact E.
Qed.

Lemma has_changes_none (c : list string) (x y : Series) :
  (forall col, In col c -> cell x col = cell y col) ->
  has_changes c x y = false.
Proof.
  intros H. unfold has_changes. induction c as [| col c IH]; simpl.
  - reflexivity.
  - rewrite (H col (or_introl eq_refl)), String.eqb_refl. apply IH.
    intros col' Hin. apply H. right. exact Hin.
Qed.

Lemma modified_pairs_agree (k c : list string) (b a : DataFrame)
  (keys : list value) :
  Forall2 (agree_on (k ++ c)) (rows b) (rows a) ->
  modified_pairs k c b a keys = [].
Proof.
  intros Hag. unfold modified_pairs.
  induction keys as [| key keys IH]; simpl; [reflexivity |].
  rewrite IH, app_nil_r. unfold modified_at, first_with_key.
  pose proof (find_related (agree_on (k ++ c))
                (fun r => value_eqb (key_of k r) key) (rows b) (rows a) Hag)
    as Hfind.
  destruct (find _ (rows b)) as [rb |]; destruct (find _ (rows a)) as [ra |];
    try reflexivity.
  assert (Hrel : agree_on (k ++ c) rb ra).
  { apply Hfind. intros x y Hxy. rewrite (agree_same_key k c x y Hxy).
    reflexivity. }
  rewrite has_changes_none; [reflexivity |].
  intros col Hin.
  rewrite !cell_out_row by (apply in_or_app; right; exact Hin).
  rewrite (agree_same_key k c rb ra Hrel), (Hrel col); [reflexivity |].
  apply in_or_app. right. exact Hin.
Qed.

Lemma unmatched_rows_same_keys (k : list string) (df other : DataFrame) :
  keys_of k df = keys_of k other -> unmatched_rows k df other = [].
Proof.
  intros Hk. unfold unmatched_rows. apply filter_none. intros r Hr.
  rewrite <- Hk. apply negb_false_iff. apply isin_In.
  unfold keys_of. apply in_map. exact Hr.
Qed.

(** Only the selected columns count.  If the two tables have as many rows
    and every row of the before table has the same cells as the row at the
    same position of the after table in the key columns and the compare
    columns - whatever either table holds in its other columns - then
    nothing is reported: the four output tables have no rows. *)
Theorem unselected_columns_are_ignored (b a : DataFrame) (k c : list string)
  (o : Outputs) :
  snd (compare_dataframes set_iter b a k c) = Ok o ->
  Forall2 (agree_on (k ++ c)) (rows b) (rows a) ->
  rows (deleted o) = [] /\
  rows (added o) = [] /\
  rows (modified_before_df o) = [] /\
  rows (modified_after_df o) = [].
Proof.
  intros Hrun Hag.
  destruct (compare_dataframes_returns set_iter set_iter_enumerates
              b a k c o Hrun) as (_ & _ & ->).
  unfold outputs_of. cbn [deleted added modified_before_df modified_after_df].
  rewrite !rows_frame_or_empty, (modified_pairs_agree k c b a _ Hag).
  cbn [rows].
  pose proof (agree_same_keys k c _ _ Hag) as Hkeys.
  rewrite (unmatched_rows_same_keys k b a Hkeys).
  rewrite (unmatched_rows_same_keys k a b (eq_sym Hkeys)).
  repeat split.
Qed.

(** ** Calling the engine again on the tables it left behind *)

Lemma lookup_none_labels (c : string) (l : list (string * value)) :
  lookup c l = None -> forall it, In it l -> String.eqb (fst it) c = false.
Proof.
  induction l as [| [d w] l IH]; simpl; intros H it Hin; [contradiction |].
  destruct (String.eqb d c) eqn:E; [discriminate |].
  destruct Hin as [<- | Hin]; [exact E | apply IH; assumption].
Qed.

Lemma set_item_twice (c : string) (v w : value) (r : Series) :
  set_item c v (set_item c w r) = set_item c v r.
Proof.
  unfold set_item. cbn [name items]. f_equal.
  destruct (lookup c (items r)) eqn:E.
  - rewrite lookup_replace by congruence.
    rewrite map_map. apply map_ext. intros [d x]. simpl.
    destruct (String.eqb d c) eqn:Ed; simpl.
    + rewrite String.eqb_refl. reflexivity.
    + rewrite Ed. reflexivity.
  - rewrite lookup_app, E. simpl. rewrite String.eqb_refl.
    rewrite map_app. simpl. rewrite String.eqb_refl. f_equal.
    rewrite <- (map_id (items r)) at 2. apply map_ext_in.
    intros it Hin. rewrite (lookup_none_labels c _ E it Hin). reflexivity.
Qed.

Lemma composite_key_keyed (k : list string) (r : Series) :
  ~ In KEY k -> composite_key k (keyed k r) = composite_key k r.
Proof.
  intros Hk. apply composite_key_ext. intros col Hin.
  apply cell_keyed_other. intros ->. exact (Hk Hin).
Qed.

Lemma keyed_keyed (k : list string) (r : Series) :
  ~ In KEY k -> keyed k (keyed k r) = keyed k r.
Proof.
  intros Hk. unfold keyed at 1. unfold key_of.
  rewrite (composite_key_keyed k r Hk). unfold keyed. apply set_item_twice.
Qed.

Lemma with_key_with_key (k : list string) (df : DataFrame) :
  ~ In KEY k -> with_key k (with_key k df) = with_key k df.
Proof.
  intros Hk.
  assert (Hshape : forall d, d = mkDataFrame (columns d) (rows d))
    by (intros [? ?]; reflexivity).
  rewrite (Hshape (with_key k (with_key k df))).
  rewrite (Hshape (with_key k df)) at 3.
  f_equal.
  - rewrite columns_with_key.
    assert (Hin : In KEY (columns (with_key k df)))
      by (apply In_columns_with_key; left; reflexivity).
    apply mem_In in Hin. rewrite Hin. reflexivity.
  - rewrite !rows_with_key, map_map. apply map_ext.
    intros r. apply keyed_keyed. exact Hk.
Qed.

Lemma keys_of_with_key (k : list string) (df : DataFrame) :
  ~ In KEY k -> keys_of k (with_key k df) = keys_of k df.
Proof.
  intros Hk. unfold keys_of. rewrite rows_with_key, map_map.
  apply map_ext. intros r. unfold key_of.
  rewrite (composite_key_keyed k r Hk). reflexivity.
Qed.

Lemma out_row_keyed (k cols : list string) (r : Series) :
  ~ In KEY k -> out_row k cols (keyed k r) = out_row k cols r.
Proof.
  intros Hk. unfold out_row. rewrite (keyed_keyed k r Hk). reflexivity.
Qed.

Lemma find_map {A B : Type} (f : A -> B) (p : B -> bool) (l : list A) :
  find p (map f l) = option_map f (find (fun x => p (f x)) l).
Proof.
  induction l as [| x l IH]; simpl; [reflexivity |].
  destruct (p (f x)); [reflexivity | exact IH].
Qed.

Lemma find_same {A : Type} (p q : A -> bool) (l : list A) :
  (forall x, p x = q x) -> find p l = find q l.
Proof.
  intros H. induction l as [| x l IH]; simpl; [reflexivity |].
  rewrite (H x), IH. reflexivity.
Qed.

Lemma first_with_key_with_key (k : list string) (df : DataFrame)
  (key : value) :
  ~ In KEY k ->
  first_with_key k (with_key k df) key
  = option_map (keyed k) (first_with_key k df key).
Proof.
  intros Hk. unfold first_with_key. rewrite rows_with_key, find_map.
  f_equal. apply find_same. intros r. unfold key_of.
  rewrite (composite_key_keyed k r Hk). reflexivity.
Qed.

Lemma modified_pairs_with_key (k c : list string) (b a : DataFrame)
  (keys : list value) :
  ~ In KEY k ->
  modified_pairs k c (with_key k b) (with_key k a) keys
  = modified_pairs k c b a keys.
Proof.
  intros Hk. unfold modified_pairs. apply flat_map_ext. intros key.
  unfold modified_at. rewrite !first_with_key_with_key by exact Hk.
  destruct (first_with_key k b key) as [rb |];
    destruct (first_with_key k a key) as [ra |]; try reflexivity.
  simpl. rewrite !out_row_keyed by exact Hk. reflexivity.
Qed.

Lemma unmatched_rows_with_key (k cols : list string) (df other : DataFrame) :
  ~ In KEY k ->
  map (out_row k cols) (unmatched_rows k (with_key k df) (with_key k other))
  = map (out_row k cols) (unmatched_rows k df other).
Proof.
  intros Hk. unfold unmatched_rows.
  rewrite rows_with_key, filter_map_comm, map_map.
  rewrite (keys_of_with_key k other Hk).
  rewrite (filter_ext
             (fun x => negb (isin (key_of k (keyed k x)) (keys_of k other)))
             (fun r => negb (isin (key_of k r) (keys_of k other)))).
  - apply map_ext. intros r. apply out_row_keyed. exact Hk.
  - intros r. unfold key_of. rewrite (composite_key_keyed k r Hk).
    reflexivity.
Qed.

Lemma outputs_of_with_key (b a : DataFrame) (k c : list string) :
  ~ In KEY k ->
  outputs_of set_iter (with_key k b) (with_key k a) k c
  = outputs_of set_iter b a k c.
Proof.
  intros Hk. unfold outputs_of.
  rewrite !(unmatched_rows_with_key k (k ++ c)) by exact Hk.
  unfold common_keys. rewrite !keys_of_with_key by exact Hk.
  rewrite modified_pairs_with_key by exact Hk. reflexivity.
Qed.

(** The engine can be called again on the two tables a first call left
    behind, without taking copies: when [_key] is not itself a key column,
    the second call leaves the tables as they are and returns the same four
    output tables as the first. *)
Theorem second_call_same_outputs (b a : DataFrame) (k c : list string)
  (o : Outputs) :
  snd (compare_dataframes set_iter b a k c) = Ok o ->
  ~ In KEY k ->
  compare_dataframes set_iter
    (fst (fst (compare_dataframes set_iter b a k c)))
    (snd (fst (compare_dataframes set_iter b a k c))) k c
  = (fst (compare_dataframes set_iter b a k c), Ok o).
Proof.
  intros Hrun Hk.
  destruct (compare_dataframes_returns set_iter set_iter_enumerates
              b a k c o Hrun) as ((Hkb & Hka & Hb & Ha) & Hst & ->).
  rewrite Hst. cbn [fst snd].
  assert (Hcols : forall df, incl (k ++ c) (KEY :: columns df) ->
            incl (k ++ c) (KEY :: columns (with_key k df))).
  { intros df H x Hx.
    destruct (H x Hx) as [Hx' | Hx']; [left; exact Hx' |].
    right. apply (In_columns_with_key k df x). right. exact Hx'. }
  assert (Hkey : forall df, incl k (columns df) ->
            incl k (columns (with_key k df))).
  { intros df H x Hx. apply (In_columns_with_key k df x). right.
    apply H. exact Hx. }
  rewrite (compare_dataframes_ok set_iter set_iter_enumerates
             (with_key k b) (with_key k a) k c).
  - rewrite !with_key_with_key by exact Hk.
    rewrite outputs_of_with_key by exact Hk. reflexivity.
  - apply resolves_incl, Hkey, Hkb.
  - apply resolves_incl, Hkey, Hka.
  - apply resolves_with_key, Hcols, Hb.
  - apply resolves_with_key, Hcols, Ha.
Qed.

End Engine_algebra.

(** * The loader *)

Lemma endswith_refl (s : string) : endswith s s = true.
Proof. destruct s; cbn [endswith]; rewrite String.eqb_refl; reflexivity. Qed.

Lemma endswith_iff (s suffix : string) :
  endswith s suffix = true <-> exists stem, s = (stem ++ suffix)%string.
Proof.
  split.
  - induction s as [| ch s IH]; cbn [endswith].
    + destruct (String.eqb EmptyString suffix) eqn:E; [| discriminate].
      apply String.eqb_eq in E. subst. exists EmptyString. reflexivity.
    + destruct (String.eqb (String ch s) suffix) eqn:E.
      * apply String.eqb_eq in E. subst. exists EmptyString. reflexivity.
      * intros H. destruct (IH H) as [stem ->].
        exists (String ch stem). reflexivity.
  - intros [stem ->]. induction stem as [| ch stem IH].
    + apply endswith_refl.
    + change (endswith (String ch (stem ++ suffix)) suffix = true).
      cbn [endswith].
      destruct (String.eqb _ suffix); [reflexivity | exact IH].
Qed.

Lemma string_length_app (s t : string) :
  String.length (s ++ t) = String.length s + String.length t.
Proof.
  induction s as [| ch s IH]; simpl; [reflexivity | rewrite IH; reflexivity].
Qed.

Lemma string_app_assoc (s t u : string) :
  ((s ++ t) ++ u = s ++ (t ++ u))%string.
Proof.
  induction s as [| ch s IH]; simpl; [reflexivity | rewrite IH; reflexivity].
Qed.

(** Two texts that end in suffixes of one length end in the same suffix. *)
Lemma same_length_suffix (s t x y : string) :
  String.length x = String.length y ->
  (s ++ x = t ++ y)%string -> s = t /\ x = y.
Proof.
  intros Hlen. revert t. induction s as [| ch s IH]; intros [| ch' t] Heq;
    simpl in Heq.
  - auto.
  - exfalso. apply (f_equal String.length) in Heq. simpl in Heq.
    rewrite string_length_app, <- Hlen in Heq.
    apply (Nat.lt_irrefl (String.length x)). rewrite Heq at 2.
    apply Nat.lt_succ_r. apply Nat.le_add_l.
  - exfalso. apply (f_equal String.length) in Heq. simpl in Heq.
    rewrite string_length_app, Hlen in Heq.
    apply (Nat.lt_irrefl (String.length y)). rewrite <- Heq at 2.
    apply Nat.lt_succ_r. apply Nat.le_add_l.
  - injection Heq as -> Heq. destruct (IH t Heq) as [-> ->]. auto.
Qed.

Lemma not_csv (stem : string) :
  endswith (stem ++ ".xls") ".csv" = false /\
  endswith (stem ++ ".xlsx") ".csv" = false.
Proof.
  split.
  - destruct (endswith (stem ++ ".xls") ".csv") eqn:E; [| reflexivity].
    apply endswith_iff in E. destruct E as [stem' E].
    apply same_length_suffix in E; [| reflexivity].
    destruct E as [_ E]. discriminate.
  - destruct (endswith (stem ++ ".xlsx") ".csv") eqn:E; [| reflexivity].
    apply endswith_iff in E. destruct E as [stem' E].
    change (stem ++ ".xlsx")%string with (stem ++ ("." ++ "xlsx"))%string in E.
    rewrite <- string_app_assoc in E.
    apply same_length_suffix in E; [| reflexivity].
    destruct E as [_ E]. discriminate.
Qed.

(** [read_file] goes by the end of the file name alone, letter case
    included: a name ending in ".csv" is handed to the CSV reader, a name
    ending in ".xls" or ".xlsx" to the Excel reader, and [None] comes back
    exactly for the names that end in none of the three. *)
Theorem read_file_by_extension (Parsed : Type)
  (read_csv read_excel : UploadedFile -> Parsed) (file : UploadedFile) :
  (forall stem, file_name file = (stem ++ ".csv")%string ->
     read_file read_csv read_excel file = Some (read_csv file)) /\
  (forall stem,
     file_name file = (stem ++ ".xls")%string \/
     file_name file = (stem ++ ".xlsx")%string ->
     read_file read_csv read_excel file = Some (read_excel file)) /\
  (read_file read_csv read_excel file = None <->
   forall stem ext,
     In ext [".csv"; ".xls"; ".xlsx"] ->
     file_name file <> (stem ++ ext)%string).
Proof.
  unfold read_file. split; [| split].
  - intros stem Hn.
    rewrite (proj2 (endswith_iff _ _) (ex_intro _ stem Hn)). reflexivity.
  - intros stem Hn.
    assert (Hcsv : endswith (file_name file) ".csv" = false)
      by (destruct Hn as [-> | ->]; apply not_csv).
    rewrite Hcsv.
    assert (Hxl : endswith (file_name file) ".xls"
                  || endswith (file_name file) ".xlsx" = true).
    { apply orb_true_iff.
      destruct Hn as [Hn | Hn]; [left | right];
        apply endswith_iff; exists stem; exact Hn. }
    rewrite Hxl. reflexivity.
  - split.
    + intros Hnone stem ext Hext Hn.
      assert (Hends : endswith (file_name file) ext = true)
        by (apply endswith_iff; exists stem; exact Hn).
      destruct Hext as [<- | [<- | [<- | []]]]; rewrite Hends in Hnone;
        try discriminate;
        destruct (endswith (file_name file) ".csv"); try discriminate;
        rewrite ?orb_true_r in Hnone; discriminate.
    + intros Hno.
      destruct (endswith (file_name file) ".csv") eqn:E1.
      { apply endswith_iff in E1. destruct E1 as [stem E1].
        exfalso. apply (Hno stem ".csv"); [left; reflexivity | exact E1]. }
      destruct (endswith (file_name file) ".xls") eqn:E2.
      { apply endswith_iff in E2. destruct E2 as [stem E2].
        exfalso. apply (Hno stem ".xls"); [right; left; reflexivity | exact E2]. }
      destruct (endswith (file_name file) ".xlsx") eqn:E3.
      { apply endswith_iff in E3. destruct E3 as [stem E3].
        exfalso.
        apply (Hno stem ".xlsx"); [right; right; left; reflexivity | exact E3]. }
      reflexivity.
Qed.

(** * The report *)

Lemma same_index_eq (l l' : list Z) : same_index l l' = true <-> l = l'.
Proof.
  revert l'. induction l as [| x l IH]; intros [| y l']; simpl;
    try (split; [discriminate | discriminate]).
  - tauto.
  - rewrite andb_true_iff, Z.eqb_eq, IH. split.
    + intros [-> ->]. reflexivity.
    + intros H. injection H as -> ->. auto.
Qed.

Lemma is_unique_NoDup (l : list Z) : is_unique l = true <-> NoDup l.
Proof.
  induction l as [| x l IH]; simpl.
  - split; [constructor | reflexivity].
  - rewrite andb_true_iff, negb_true_iff, IH. split.
    + intros [Hx Hl]. constructor; [| exact Hl].
      intros Hin. assert (existsb (Z.eqb x) l = true); [| congruence].
      apply existsb_exists. exists x. split; [exact Hin | apply Z.eqb_refl].
    + intros H. inversion H as [| ? ? Hx Hl]. subst. split; [| exact Hl].
      destruct (existsb (Z.eqb x) l) eqn:E; [| reflexivity].
      apply existsb_exists in E. destruct E as [y [Hy Hxy]].
      apply Z.eqb_eq in Hxy. subst y. contradiction.
Qed.

Lemma written_cells_app (l : Z) (xs ys : list (string * value)) :
  written_cells (mkSeries l (xs ++ ys))
  = written_cells (mkSeries l xs) ++ written_cells (mkSeries l ys).
Proof. unfold written_cells. simpl. apply map_app. Qed.

Lemma written_reindexed (df : DataFrame) (l : Z) :
  written_cells (mkSeries l (reindexed df l)) = beside df l.
Proof.
  unfold written_cells, reindexed, beside. simpl.
  destruct (row_labelled df l) as [r |]; [reflexivity |].
  rewrite map_map. reflexivity.
Qed.

Lemma row_labelled_In (df : DataFrame) (r : Series) :
  NoDup (index df) -> In r (rows df) -> row_labelled df (name r) = Some r.
Proof.
  unfold index, row_labelled. induction (rows df) as [| x l IH]; simpl;
    intros Hnd Hin; [contradiction |].
  inversion Hnd as [| ? ? Hx Hl]. subst.
  destruct Hin as [-> | Hin].
  - rewrite Z.eqb_refl. reflexivity.
  - destruct (Z.eqb (name x) (name r)) eqn:E; [| apply IH; assumption].
    apply Z.eqb_eq in E. exfalso. apply Hx. rewrite E.
    apply in_map. exact Hin.
Qed.

Lemma row_labelled_name (df : DataFrame) (l : Z) (r : Series) :
  row_labelled df l = Some r -> In r (rows df) /\ name r = l.
Proof.
  unfold row_labelled. intros H. apply find_some in H.
  destruct H as [Hin Hn]. apply Z.eqb_eq in Hn. auto.
Qed.

Lemma row_labelled_none (df : DataFrame) (l : Z) :
  row_labelled df l = None -> ~ In l (index df).
Proof.
  unfold row_labelled, index. intros H Hin. apply in_map_iff in Hin.
  destruct Hin as [r [Hn Hr]].
  pose proof (find_none _ _ H r Hr) as Hf. simpl in Hf.
  rewrite Hn, Z.eqb_refl in Hf. discriminate.
Qed.

(** ** Renamed copies *)

Lemma index_rename (suffix : string) (df : DataFrame) :
  index (rename_columns suffix df) = index df.
Proof.
  unfold index, rename_columns. simpl. rewrite map_map. reflexivity.
Qed.

Lemma beside_rename (suffix : string) (df : DataFrame) (l : Z) :
  beside (rename_columns suffix df) l = beside df l.
Proof.
  unfold beside, row_labelled, rename_columns. simpl. rewrite find_map.
  simpl. destruct (find _ (rows df)) as [r |]; simpl.
  - unfold written_cells. simpl. rewrite map_map. reflexivity.
  - rewrite map_map. reflexivity.
Qed.

Lemma written_rows_rename (suffix : string) (df : DataFrame) :
  map written_cells (rows (rename_columns suffix df))
  = map written_cells (rows df).
Proof.
  unfold rename_columns. simpl. rewrite map_map. apply map_ext.
  intros r. unfold written_cells. simpl. rewrite map_map. reflexivity.
Qed.

Lemma header_renamed (mb ma : DataFrame) :
  map (fun col => Some (VStr col))
      (columns (rename_columns " (Before)" mb)
       ++ columns (rename_columns " (After)" ma))
  = modified_header mb ma.
Proof.
  unfold modified_header, rename_columns. simpl.
  rewrite map_app, !map_map. reflexivity.
Qed.

(** ** The Modified sheet when the two indexes are equal *)

Lemma combine_written (lx ly : list Series) :
  map written_cells
      (map (fun p => mkSeries (name (fst p)) (items (fst p) ++ items (snd p)))
           (combine lx ly))
  = map (fun p => written_cells (fst p) ++ written_cells (snd p))
        (combine lx ly).
Proof.
  rewrite map_map. apply map_ext. intros [x y]. simpl.
  unfold written_cells. simpl. apply map_app.
Qed.

Lemma combine_map_both {A B C D : Type} (f : A -> C) (g : B -> D)
  (l : list A) (l' : list B) :
  combine (map f l) (map g l')
  = map (fun p => (f (fst p), g (snd p))) (combine l l').
Proof.
  revert l'. induction l as [| x l IH]; intros [| y l']; simpl;
    try reflexivity.
  rewrite IH. reflexivity.
Qed.

(** When row [i] of ModifiedBefore and row [i] of ModifiedAfter carry the
    same index label for every [i], the Modified sheet is the header
    followed by one line per pair, in order: the cells of the before row and
    then the cells of the after row. *)
Theorem modified_sheet_side_by_side
  (index_union : list Z -> list Z -> list Z)
  (deleted added modified_before modified_after : DataFrame) :
  empty modified_before = false ->
  index modified_before = index modified_after ->
  exists deleted_sheet added_sheet,
    create_excel_output index_union
      deleted added modified_before modified_after
    = Exported
        [("Deleted", deleted_sheet); ("Added", added_sheet);
         ("Modified",
          modified_header modified_before modified_after
          :: map (fun p => written_cells (fst p) ++ written_cells (snd p))
                 (combine (rows modified_before) (rows modified_after)))].
Proof.
  intros Hne Hix. unfold create_excel_output. rewrite Hne. cbn [negb].
  unfold concat_columns. rewrite !index_rename, Hix.
  rewrite (proj2 (same_index_eq _ _) eq_refl).
  eexists. eexists. f_equal. f_equal. f_equal. f_equal. f_equal.
  unfold to_excel. cbn [columns rows]. rewrite header_renamed. f_equal.
  rewrite combine_written.
  unfold rename_columns. cbn [rows]. rewrite combine_map_both, map_map.
  apply map_ext. intros [x y]. unfold written_cells. simpl.
  rewrite !map_map. reflexivity.
Qed.

(** ** The header of the Modified sheet *)

Lemma suffixed_injective (suffix : string) (l : list string) :
  NoDup l -> NoDup (map (fun col => (col ++ suffix)%string) l).
Proof.
  intros H. apply Finite.Injective_map_NoDup; [| exact H].
  intros x y Heq. apply same_length_suffix in Heq; [| reflexivity].
  apply Heq.
Qed.

Lemma before_is_not_after (x y : string) :
  (x ++ " (Before)")%string <> (y ++ " (After)")%string.
Proof.
  intros Heq.
  change (x ++ " (Before)")%string with (x ++ (" " ++ "(Before)"))%string
    in Heq.
  rewrite <- string_app_assoc in Heq.
  apply same_length_suffix in Heq; [| reflexivity].
  destruct Heq as [_ Heq]. discriminate.
Qed.

(** The names in the header of the Modified sheet are pairwise different
    whenever each of the two tables has pairwise different column names:
    the suffixes keep a before column apart from every after column, also
    from the one of the same name. *)
Theorem modified_header_distinct (modified_before modified_after : DataFrame) :
  NoDup (columns modified_before) ->
  NoDup (columns modified_after) ->
  NoDup (modified_header modified_before modified_after).
Proof.
  intros Hb Ha. unfold modified_header.
  rewrite <- !(map_map (fun col => (col ++ _)%string)
                       (fun s => Some (VStr s))).
  rewrite <- map_app.
  apply Finite.Injective_map_NoDup; [intros x y H; congruence |].
  apply NoDup_app; try (apply suffixed_injective; assumption).
  intros s Hs1 Hs2. apply in_map_iff in Hs1. apply in_map_iff in Hs2.
  destruct Hs1 as [x [Hx _]]. destruct Hs2 as [y [Hy _]].
  apply (before_is_not_after x y). congruence.
Qed.

(** ** The Modified sheet in general: rows are joined on their labels *)

Lemma combine_same_labels (lx ly : list Series) :
  map name lx = map name ly ->
  (forall p, In p (combine lx ly) -> name (fst p) = name (snd p)) /\
  (forall x, In x lx -> exists y, In (x, y) (combine lx ly)) /\
  (forall y, In y ly -> exists x, In (x, y) (combine lx ly)).
Proof.
  revert ly. induction lx as [| x lx IH]; intros [| y ly] H; simpl in *;
    try discriminate.
  - split; [| split]; intros ? [].
  - injection H as Hn Hrest. destruct (IH ly Hrest) as (H1 & H2 & H3).
    split; [| split].
    + intros p [<- | Hp]; [exact Hn | apply H1; exact Hp].
    + intros x' [<- | Hx]; [exists y; left; reflexivity |].
      destruct (H2 x' Hx) as [y' Hy']. exists y'. right. exact Hy'.
    + intros y' [<- | Hy]; [exists x; left; reflexivity |].
      destruct (H3 y' Hy) as [x' Hx']. exists x'. right. exact Hx'.
Qed.

Lemma beside_own_row (df : DataFrame) (r : Series) :
  NoDup (index df) -> In r (rows df) -> beside df (name r) = written_cells r.
Proof.
  intros Hnd Hin. unfold beside. rewrite (row_labelled_In df r Hnd Hin).
  reflexivity.
Qed.

Section Report_join.

Variable index_union : list Z -> list Z -> list Z.
Hypothesis index_union_lists :
  forall l l' x, In x (index_union l l') <-> In x l \/ In x l'.

Lemma concat_columns_joined (x y : DataFrame) :
  NoDup (index x) -> NoDup (index y) ->
  exists combined,
    concat_columns index_union x y = Some combined /\
    columns combined = columns x ++ columns y /\
    (forall rx, In rx (rows x) ->
       In (written_cells rx ++ beside y (name rx))
          (map written_cells (rows combined))) /\
    (forall ry, In ry (rows y) ->
       In (beside x (name ry) ++ written_cells ry)
          (map written_cells (rows combined))) /\
    (forall line, In line (map written_cells (rows combined)) ->
       exists l, (In l (index x) \/ In l (index y)) /\
                 line = beside x l ++ beside y l).
Proof.
  intros Hx Hy. unfold concat_columns.
  destruct (same_index (index x) (index y)) eqn:E.
  - apply same_index_eq in E.
    destruct (combine_same_labels (rows x) (rows y) E) as (Hlab & Hl & Hr).
    eexists. split; [reflexivity |]. split; [reflexivity |].
    cbn [rows]. rewrite combine_written. split; [| split].
    + intros rx Hin. destruct (Hl rx Hin) as [ry Hp].
      apply in_map_iff. exists (rx, ry). split; [| exact Hp]. cbn [fst snd].
      pose proof (Hlab _ Hp) as Hn. cbn [fst snd] in Hn. rewrite Hn.
      rewrite (beside_own_row y ry Hy (in_combine_r _ _ _ _ Hp)).
      reflexivity.
    + intros ry Hin. destruct (Hr ry Hin) as [rx Hp].
      apply in_map_iff. exists (rx, ry). split; [| exact Hp]. cbn [fst snd].
      pose proof (Hlab _ Hp) as Hn. cbn [fst snd] in Hn. rewrite <- Hn.
      rewrite (beside_own_row x rx Hx (in_combine_l _ _ _ _ Hp)).
      reflexivity.
    + intros line Hin. apply in_map_iff in Hin.
      destruct Hin as [[rx ry] [<- Hp]]. cbn [fst snd].
      exists (name rx). split.
      * left. unfold index. apply in_map. apply (in_combine_l _ _ _ _ Hp).
      * rewrite (beside_own_row x rx Hx (in_combine_l _ _ _ _ Hp)).
        pose proof (Hlab _ Hp) as Hn. cbn [fst snd] in Hn. rewrite Hn.
        rewrite (beside_own_row y ry Hy (in_combine_r _ _ _ _ Hp)).
        reflexivity.
  - rewrite (proj2 (is_unique_NoDup _) Hx), (proj2 (is_unique_NoDup _) Hy).
    cbn [andb]. eexists. split; [reflexivity |]. split; [reflexivity |].
    cbn [rows]. rewrite map_map.
    rewrite (map_ext _ (fun l => beside x l ++ beside y l))
      by (intros l; rewrite written_cells_app, !written_reindexed;
          reflexivity).
    split; [| split].
    + intros rx Hin. apply in_map_iff. exists (name rx). split.
      * rewrite (beside_own_row x rx Hx Hin). reflexivity.
      * apply index_union_lists. left. unfold index. apply in_map. exact Hin.
    + intros ry Hin. apply in_map_iff. exists (name ry). split.
      * rewrite (beside_own_row y ry Hy Hin). reflexivity.
      * apply index_union_lists. right. unfold index. apply in_map. exact Hin.
    + intros line Hin. apply in_map_iff in Hin. destruct Hin as [l [<- Hl]].
      exists l. split; [| reflexivity]. apply index_union_lists. exact Hl.
Qed.

Lemma In_rows_rename (suffix : string) (df : DataFrame) (r : Series) :
  In r (rows df) ->
  exists r', In r' (rows (rename_columns suffix df)) /\
             name r' = name r /\ written_cells r' = written_cells r.
Proof.
  intros Hin. eexists. split.
  - unfold rename_columns. cbn [rows]. apply in_map. exact Hin.
  - split; [reflexivity |]. unfold written_cells. simpl.
    rewrite map_map. reflexivity.
Qed.

(** The Modified sheet joins the two tables on their index labels, not on
    the position of the rows.  When neither ModifiedBefore nor ModifiedAfter
    repeats an index label, the sheet is written, its header is followed by
    one line per label that occurs in either table, and each line shows the
    cells of the before row of that label and then the cells of the after
    row of that label, with empty cells on a side that has no row of that
    label.  So a before row stands beside the after row of the same label,
    or beside empty cells. *)
Theorem modified_sheet_joined_on_labels
  (deleted added modified_before modified_after : DataFrame) :
  empty modified_before = false ->
  NoDup (index modified_before) ->
  NoDup (index modified_after) ->
  exists deleted_sheet added_sheet lines,
    create_excel_output index_union
      deleted added modified_before modified_after
    = Exported
        [("Deleted", deleted_sheet); ("Added", added_sheet);
         ("Modified",
          modified_header modified_before modified_after :: lines)] /\
    (forall rb, In rb (rows modified_before) ->
       In (written_cells rb ++ beside modified_after (name rb)) lines) /\
    (forall ra, In ra (rows modified_after) ->
       In (beside modified_before (name ra) ++ written_cells ra) lines) /\
    (forall line, In line lines ->
       exists l,
         (In l (index modified_before) \/ In l (index modified_after)) /\
         line = beside modified_before l ++ beside modified_after l).
Proof.
  intros Hne Hb Ha. unfold create_excel_output. rewrite Hne. cbn [negb].
  destruct (concat_columns_joined
              (rename_columns " (Before)" modified_before)
              (rename_columns " (After)" modified_after))
    as (combined & Hc & Hcols & Hleft & Hright & Hlines);
    try (rewrite index_rename; assumption).
  rewrite Hc. unfold to_excel. rewrite Hcols, header_renamed.
  eexists. eexists. eexists. split; [reflexivity |]. split; [| split].
  - intros rb Hin.
    destruct (In_rows_rename " (Before)" _ rb Hin) as (r' & Hr' & Hn & Hw).
    specialize (Hleft r' Hr'). rewrite Hw, Hn, beside_rename in Hleft.
    exact Hleft.
  - intros ra Hin.
    destruct (In_rows_rename " (After)" _ ra Hin) as (r' & Hr' & Hn & Hw).
    specialize (Hright r' Hr'). rewrite Hw, Hn, beside_rename in Hright.
    exact Hright.
  - intros line Hin. destruct (Hlines line Hin) as [l [Hl ->]].
    exists l. rewrite !index_rename in Hl. rewrite !beside_rename. auto.
Qed.

End Report_join.

(** ** The shape of the workbook *)

Lemma not_empty_rows (df : DataFrame) :
  empty df = false -> exists r l, rows df = r :: l.
Proof.
  unfold empty. destruct (columns df) as [| col cols]; [discriminate |].
  destruct (rows df) as [| r rest]; [discriminate |]. eauto.
Qed.

Lemma to_excel_filled (df : DataFrame) :
  empty df = false ->
  exists line lines,
    to_excel df
    = map (fun col => Some (VStr col)) (columns df) :: line :: lines.
Proof.
  intros H. destruct (not_empty_rows df H) as (r & l & Hr).
  unfold to_excel. rewrite Hr. simpl. eauto.
Qed.

Section Report_shape.

Variable index_union : list Z -> list Z -> list Z.
Hypothesis index_union_lists :
  forall l l' x, In x (index_union l l') <-> In x l \/ In x l'.

Lemma concat_columns_filled (x y combined : DataFrame) (r : Series)
  (l : list Series) :
  rows x = r :: l ->
  concat_columns index_union x y = Some combined ->
  columns combined = columns x ++ columns y /\
  exists r' l', rows combined = r' :: l'.
Proof.
  intros Hr. unfold concat_columns.
  destruct (same_index (index x) (index y)) eqn:E.
  - intros H. injection H as <-. split; [reflexivity |]. cbn [rows].
    apply same_index_eq in E. unfold index in E. rewrite Hr in E.
    destruct (rows y) as [| ry ly]; [discriminate |]. rewrite Hr.
    simpl. eauto.
  - destruct (is_unique (index x) && is_unique (index y)); [| discriminate].
    intros H. injection H as <-. split; [reflexivity |]. cbn [rows].
    destruct (index_union (index x) (index y)) as [| l0 ls] eqn:Eu.
    + exfalso.
      assert (Hin : In (name r) (index_union (index x) (index y))).
      { apply index_union_lists. left. unfold index. rewrite Hr.
        left. reflexivity. }
      rewrite Eu in Hin. exact Hin.
    + simpl. eauto.
Qed.

(** Whenever [create_excel_output] returns, the workbook has exactly the
    three sheets Deleted, Added and Modified, in this order, and no sheet is
    empty or a bare header: the sheet of a table that pandas calls empty (no
    rows, or no columns) is the single placeholder cell, and every other
    sheet is a header line followed by at least one line of cells.  The
    Modified sheet goes by ModifiedBefore alone. *)
Theorem report_has_three_filled_sheets
  (deleted added modified_before modified_after : DataFrame)
  (book : Workbook) :
  create_excel_output index_union
    deleted added modified_before modified_after = Exported book ->
  exists deleted_sheet added_sheet modified_sheet,
    book = [("Deleted", deleted_sheet); ("Added", added_sheet);
            ("Modified", modified_sheet)] /\
    (if empty deleted
     then deleted_sheet = [[Some (VStr "No deleted rows")]]
     else exists line lines,
            deleted_sheet
            = map (fun col => Some (VStr col)) (columns deleted)
              :: line :: lines) /\
    (if empty added
     then added_sheet = [[Some (VStr "No added rows")]]
     else exists line lines,
            added_sheet
            = map (fun col => Some (VStr col)) (columns added)
              :: line :: lines) /\
    (if empty modified_before
     then modified_sheet = [[Some (VStr "No modified rows")]]
     else exists line lines,
            modified_sheet
            = modified_header modified_before modified_after
              :: line :: lines).
Proof.
  unfold create_excel_output. intros H.
  assert (Hd : if empty deleted
               then (if negb (empty deleted) then to_excel deleted
                     else placeholder "No deleted rows")
                    = [[Some (VStr "No deleted rows")]]
               else exists line lines,
                      (if negb (empty deleted) then to_excel deleted
                       else placeholder "No deleted rows")
                      = map (fun col => Some (VStr col)) (columns deleted)
                        :: line :: lines).
  { destruct (empty deleted) eqn:E; [reflexivity |].
    apply to_excel_filled. exact E. }
  assert (Ha : if empty added
               then (if negb (empty added) then to_excel added
                     else placeholder "No added rows")
                    = [[Some (VStr "No added rows")]]
               else exists line lines,
                      (if negb (empty added) then to_excel added
                       else placeholder "No added rows")
                      = map (fun col => Some (VStr col)) (columns added)
                        :: line :: lines).
  { destruct (empty added) eqn:E; [reflexivity |].
    apply to_excel_filled. exact E. }
  destruct (empty modified_before) eqn:Em; cbn [negb] in H.
  - injection H as <-. eexists. eexists. eexists.
    split; [reflexivity |]. split; [exact Hd |]. split; [exact Ha |].
    reflexivity.
  - destruct (concat_columns index_union _ _) as [combined |] eqn:Ec;
      [| discriminate].
    injection H as <-. eexists. eexists. eexists.
    split; [reflexivity |]. split; [exact Hd |]. split; [exact Ha |].
    destruct (not_empty_rows modified_before Em) as (r & l & Hr).
    destruct (concat_columns_filled
                (rename_columns " (Before)" modified_before)
                (rename_columns " (After)" modified_after) combined
                (mkSeries (name r)
                   (map (fun it => ((fst it ++ " (Before)")%string, snd it))
                        (items r)))
                (map (fun r0 =>
                        mkSeries (name r0)
                          (map (fun it =>
                                  ((fst it ++ " (Before)")%string, snd it))
                               (items r0))) l))
      as (Hcols & r' & l' & Hrows); [| exact Ec |].
    + unfold rename_columns. cbn [rows]. rewrite Hr. reflexivity.
    + unfold to_excel. rewrite Hcols, header_renamed, Hrows. simpl. eauto.
Qed.

End Report_shape.

(** * The page *)

Lemma same_columns_iff (b a : DataFrame) :
  same_columns b a = true <->
  (forall x, In x (columns b) <-> In x (columns a)).
Proof.
  unfold same_columns. rewrite andb_true_iff, !forallb_forall. split.
  - intros [H1 H2] x. split; intros Hx; apply mem_In; auto.
  - intros H. split; intros x Hx; apply mem_In; apply H; exact Hx.
Qed.

Lemma In_only_in (x y : list string) (col : string) :
  In col (only_in x y) <-> In col x /\ ~ In col y.
Proof.
  unfold only_in. rewrite nodup_In, filter_In, negb_true_iff.
  split; intros [H1 H2]; (split; [exact H1 |]).
  - intros Hy. apply mem_In in Hy. congruence.
  - destruct (mem col y) eqn:E; [| reflexivity].
    apply mem_In in E. contradiction.
Qed.

Lemma forallb_false_witness {A : Type} (f : A -> bool) (l : list A) :
  forallb f l = false -> exists x, In x l /\ f x = false.
Proof.
  induction l as [| x l IH]; simpl; [discriminate |].
  destruct (f x) eqn:E; simpl.
  - intros H. destruct (IH H) as [y [Hy Hfy]]. exists y. auto.
  - intros _. exists x. auto.
Qed.

Lemma different_columns_witness (b a : DataFrame) :
  same_columns b a = false ->
  only_in (columns b) (columns a) <> [] \/
  only_in (columns a) (columns b) <> [].
Proof.
  unfold same_columns. intros H. apply andb_false_iff in H.
  destruct H as [H | H]; [left | right];
    apply forallb_false_witness in H; destruct H as [x [Hx Hm]];
    intros Hnil;
    assert (Hin : In x (only_in (columns b) (columns a))
                  \/ In x (only_in (columns a) (columns b)));
    try (rewrite !In_only_in;
         assert (forall l, mem x l = false -> ~ In x l)
           by (intros l E Hl; apply mem_In in Hl; congruence); auto).
  - destruct Hin as [Hin | Hin]; [rewrite Hnil in Hin; exact Hin |].
    apply In_only_in in Hin. destruct Hin as [_ Hn]. exact (Hn Hx).
  - destruct Hin as [Hin | Hin]; [| rewrite Hnil in Hin; exact Hin].
    apply In_only_in in Hin. destruct Hin as [_ Hn]. exact (Hn Hx).
Qed.

Lemma In_available (b : DataFrame) (k : list string) (col : string) :
  In col (available_compare_cols b k) <-> In col (columns b) /\ ~ In col k.
Proof.
  unfold available_compare_cols. rewrite filter_In, negb_true_iff.
  split; intros [H1 H2]; (split; [exact H1 |]).
  - intros Hk. apply mem_In in Hk. congruence.
  - destruct (mem col k) eqn:E; [| reflexivity].
    apply mem_In in E. contradiction.
Qed.

Lemma concat_columns_unique (index_union : list Z -> list Z -> list Z)
  (x y : DataFrame) :
  NoDup (index x) -> NoDup (index y) ->
  exists combined, concat_columns index_union x y = Some combined.
Proof.
  intros Hx Hy. unfold concat_columns.
  destruct (same_index (index x) (index y)); [eexists; reflexivity |].
  rewrite (proj2 (is_unique_NoDup _) Hx), (proj2 (is_unique_NoDup _) Hy).
  eexists. reflexivity.
Qed.

Lemma export_unique (index_union : list Z -> list Z -> list Z)
  (d a mb ma : DataFrame) :
  NoDup (index mb) -> NoDup (index ma) ->
  exists book, create_excel_output index_union d a mb ma = Exported book.
Proof.
  intros Hb Ha. unfold create_excel_output.
  destruct (negb (empty mb)); [| eexists; reflexivity].
  destruct (concat_columns_unique index_union
              (rename_columns " (Before)" mb) (rename_columns " (After)" ma))
    as [combined Hc]; try (rewrite index_rename; assumption).
  rewrite Hc. eexists. reflexivity.
Qed.

(** The rows reported modified carry pairwise different labels when the
    rows of the tables do. *)
Lemma modified_index_unique (k c : list string) (b a : DataFrame)
  (keys : list value) :
  NoDup keys ->
  (NoDup (index b) ->
   NoDup (map name (map fst (modified_pairs k c b a keys)))) /\
  (NoDup (index a) ->
   NoDup (map name (map snd (modified_pairs k c b a keys)))).
Proof.
  intros Hkeys. induction Hkeys as [| key keys Hnew _ IH].
  - split; intros _; constructor.
  - unfold modified_pairs. cbn [flat_map].
    fold (modified_pairs k c b a keys).
    assert (Hfresh : forall p rb ra,
              first_with_key k b key = Some rb ->
              first_with_key k a key = Some ra ->
              In p (modified_pairs k c b a keys) ->
              (NoDup (index b) -> name (fst p) <> name rb) /\
              (NoDup (index a) -> name (snd p) <> name ra)).
    { intros p rb ra Hrb Hra Hp. apply In_modified_pairs in Hp.
      destruct Hp as (key' & rb' & ra' & Hin & Hrb' & Hra' & _ & ->).
      cbn [fst snd]. rewrite !name_out_row.
      apply first_with_key_In in Hrb. apply first_with_key_In in Hra.
      apply first_with_key_In in Hrb'. apply first_with_key_In in Hra'.
      split; intros Hnd Hn; apply Hnew.
      - rewrite (label_identifies _ _ _ Hnd (proj1 Hrb') (proj1 Hrb) Hn)
          in Hrb'.
        destruct Hrb as [_ <-]. destruct Hrb' as [_ ->]. exact Hin.
      - rewrite (label_identifies _ _ _ Hnd (proj1 Hra') (proj1 Hra) Hn)
          in Hra'.
        destruct Hra as [_ <-]. destruct Hra' as [_ ->]. exact Hin. }
    unfold modified_at.
    destruct (first_with_key k b key) as [rb |] eqn:Hrb; [| exact IH].
    destruct (first_with_key k a key) as [ra |] eqn:Hra; [| exact IH].
    destruct (has_changes c _ _); [| exact IH].
    cbn [app map fst snd]. rewrite !name_out_row.
    split; intros Hnd; (constructor; [| apply IH; exact Hnd]);
      intros Hin; rewrite map_map in Hin; apply in_map_iff in Hin;
      destruct Hin as [p [Hn Hp]];
      destruct (Hfresh p rb ra eq_refl eq_refl Hp) as [H1 H2].
    + exact (H1 Hnd Hn).
    + exact (H2 Hnd Hn).
Qed.

Lemma empty_no_rows (cols : list string) : empty (mkDataFrame cols []) = true.
Proof. destruct cols; reflexivity. Qed.

Section Script_properties.

Variable set_iter : list value -> list value.
Variable index_union : list Z -> list Z -> list Z.
Hypothesis set_iter_enumerates : forall l, Permutation (set_iter l) l.

Lemma selection_resolves (b a : DataFrame) (k c : list string) :
  same_columns b a = true ->
  incl k (columns b) ->
  incl c (available_compare_cols b k) ->
  compare_dataframes set_iter b a k c
  = ((with_key k b, with_key k a), Ok (outputs_of set_iter b a k c)).
Proof.
  intros Hsame Hk Hc. pose proof (proj1 (same_columns_iff b a) Hsame) as Hs.
  assert (Hcb : incl c (columns b))
    by (intros x Hx; apply (In_available b k x); apply Hc; exact Hx).
  apply (compare_dataframes_ok set_iter set_iter_enumerates).
  - apply resolves_incl. exact Hk.
  - apply resolves_incl. intros x Hx. apply Hs. apply Hk. exact Hx.
  - apply resolves_with_key. apply incl_selection; [exact Hk |].
    apply incl_tl. exact Hcb.
  - apply resolves_with_key. apply incl_selection.
    + intros x Hx. apply Hs. apply Hk. exact Hx.
    + apply incl_tl. intros x Hx. apply Hs. apply Hcb. exact Hx.
Qed.

(** With tables whose rows carry pairwise different labels, and selections
    taken from what the two pickers offer (identifier columns among the
    before table's columns, compare columns among the remaining ones, no
    column picked twice), a run of the page is never sent to the exception
    handler by a [KeyError] or an [IndexError] of the engine or by the index
    join of the report, the errors the outcome [ErrorShown] stands for; and
    whenever it shows a comparison, the engine was called on a selection
    that meets all preconditions of the specification and names no column
    twice. *)
Theorem comparison_page_never_fails (b a : DataFrame) (w : Widgets) :
  NoDup (index b) ->
  NoDup (index a) ->
  incl (key_columns w) (columns b) ->
  incl (compare_columns w) (available_compare_cols b (key_columns w)) ->
  NoDup (key_columns w) ->
  NoDup (compare_columns w) ->
  compare_page set_iter index_union b a w <> ErrorShown /\
  (forall summary book,
     compare_page set_iter index_union b a w = ComparisonShown summary book ->
     spec_preconditions b a (key_columns w) (compare_columns w) = true /\
     NoDup (key_columns w ++ compare_columns w)).
Proof.
  intros Hib Hia Hk Hc Hndk Hndc. unfold compare_page.
  destruct (same_columns b a) eqn:Hsame; [| split; [| intros ? ?]; discriminate].
  destruct (layout_confirmed w); [| split; [| intros ? ?]; discriminate].
  destruct (key_columns w) as [| k0 k] eqn:Ek;
    [split; [| intros ? ?]; discriminate |].
  destruct (compare_columns w) as [| c0 c] eqn:Ec;
    [split; [| intros ? ?]; discriminate |].
  destruct (compare_clicked w); [| split; [| intros ? ?]; discriminate].
  unfold copy. rewrite (selection_resolves b a _ _ Hsame Hk Hc). cbn [snd].
  destruct (modified_index_unique (k0 :: k) (c0 :: c) b a
              (set_iter (common_keys (k0 :: k) b a))) as [Hmb Hma].
  { apply (Permutation_NoDup (Permutation_sym (set_iter_enumerates _))).
    apply NoDup_common_keys. }
  destruct (export_unique index_union
              (deleted (outputs_of set_iter b a (k0 :: k) (c0 :: c)))
              (added (outputs_of set_iter b a (k0 :: k) (c0 :: c)))
              (modified_before_df (outputs_of set_iter b a (k0 :: k) (c0 :: c)))
              (modified_after_df (outputs_of set_iter b a (k0 :: k) (c0 :: c))))
    as [book Hbook].
  { unfold index, outputs_of. cbn [modified_before_df].
    rewrite rows_frame_or_empty. apply Hmb. exact Hib. }
  { unfold index, outputs_of. cbn [modified_after_df].
    rewrite rows_frame_or_empty. apply Hma. exact Hia. }
  rewrite Hbook. split; [discriminate |]. intros summary book' _.
  pose proof (proj1 (same_columns_iff b a) Hsame) as Hs.
  assert (Hcb : incl (c0 :: c) (columns b))
    by (intros x Hx; apply (In_available b (k0 :: k) x); apply Hc; exact Hx).
  split.
  - assert (Hall : forall l cols, incl l cols ->
              forallb (fun x => mem x cols) l = true).
    { intros l cols Hl. apply forallb_forall. intros x Hx.
      apply mem_In. apply Hl. exact Hx. }
    assert (Hka : incl (k0 :: k) (columns a))
      by (intros x Hx; apply Hs; apply Hk; exact Hx).
    assert (Hca : incl (c0 :: c) (columns a))
      by (intros x Hx; apply Hs; apply Hcb; exact Hx).
    unfold spec_preconditions.
    rewrite (Hall _ _ Hk), (Hall _ _ Hka), (Hall _ _ Hcb), (Hall _ _ Hca).
    rewrite (Hall (columns b) (columns a)) by (intros x Hx; apply Hs; exact Hx).
    rewrite (Hall (columns a) (columns b)) by (intros x Hx; apply Hs; exact Hx).
    reflexivity.
  - apply NoDup_app; try assumption.
    intros x Hxk Hxc. apply Hc in Hxc. apply In_available in Hxc.
    destruct Hxc as [_ Hn]. exact (Hn Hxk).
Qed.

(** When the layout check fails the page names a reason: at least one of
    the two lists it shows - the columns only in the before file, the
    columns only in the after file - is not empty, and the lists hold
    exactly those columns.  The check fails exactly when some column name
    is in one table and not in the other; the order of the columns and
    repeated names play no part. *)
Theorem layout_failure_names_a_column (b a : DataFrame) (w : Widgets) :
  (forall only_in_before only_in_after,
     compare_page set_iter index_union b a w
     = LayoutFailed only_in_before only_in_after ->
     (only_in_before <> [] \/ only_in_after <> []) /\
     (forall x, In x only_in_before <->
                In x (columns b) /\ ~ In x (columns a)) /\
     (forall x, In x only_in_after <->
                In x (columns a) /\ ~ In x (columns b))) /\
  ((exists only_in_before only_in_after,
      compare_page set_iter index_union b a w
      = LayoutFailed only_in_before only_in_after) <->
   ~ (forall x, In x (columns b) <-> In x (columns a))).
Proof.
  unfold compare_page. destruct (same_columns b a) eqn:Hsame.
  - assert (Hnot : forall ob oa,
              (if layout_confirmed w
               then match key_columns w with
                    | [] => SelectIdentifiers
                    | _ :: _ =>
                        match compare_columns w with
                        | [] => SelectCompareColumns
                        | _ :: _ =>
                            if compare_clicked w
                            then
                              match
                                snd (compare_dataframes set_iter (copy b)
                                       (copy a) (key_columns w)
                                       (compare_columns w))
                              with
                              | Ok o =>
                                  match
                                    create_excel_output index_union
                                      (deleted o) (added o)
                                      (modified_before_df o)
                                      (modified_after_df o)
                                  with
                                  | Exported book =>
                                      ComparisonShown
                                        (mkSummary
                                           (List.length (rows (deleted o)))
                                           (List.length (rows (added o)))
                                           (List.length
                                              (rows (modified_before_df o)))
                                           (empty (deleted o)
                                            && empty (added o)
                                            && empty (modified_before_df o)))
                                        book
                                  | InvalidIndexError => ErrorShown
                                  end
                              | Err _ => ErrorShown
                              end
                            else ReadyToCompare
                        end
                    end
               else ConfirmLayout) <> LayoutFailed ob oa).
    { intros ob oa.
      destruct (layout_confirmed w); [| discriminate].
      destruct (key_columns w); [discriminate |].
      destruct (compare_columns w); [discriminate |].
      destruct (compare_clicked w); [| discriminate].
      destruct (snd _); [| discriminate].
      destruct (create_excel_output _ _ _ _ _); discriminate. }
    split.
    + intros ob oa H. exfalso. exact (Hnot ob oa H).
    + split.
      * intros (ob & oa & H). exfalso. exact (Hnot ob oa H).
      * intros H. exfalso. apply H. apply same_columns_iff. exact Hsame.
  - split.
    + intros ob oa H. injection H as <- <-.
      split; [apply different_columns_witness; exact Hsame |].
      split; intros x; apply In_only_in.
    + split.
      * intros _ H. apply same_columns_iff in H. congruence.
      * intros _. eexists. eexists. reflexivity.
Qed.

(** Two files that have rows, no missing cell in an identifier column, and
    that agree, row by row, in every selected column go through the page to
    "no differences": with the layout confirmed, non-empty selections taken
    from the pickers (no column picked twice) and the button pressed, the
    page shows the three metrics at zero and the no-differences note, and
    the report holds the three placeholder sheets, each a single cell.  (The
    after file's
    identifier cells are those of the before file, so the condition on them
    is stated for the before file.) *)
Theorem unchanged_files_report (b a : DataFrame) (w : Widgets) :
  same_columns b a = true ->
  layout_confirmed w = true ->
  key_columns w <> [] ->
  compare_columns w <> [] ->
  compare_clicked w = true ->
  incl (key_columns w) (columns b) ->
  incl (compare_columns w) (available_compare_cols b (key_columns w)) ->
  NoDup (key_columns w) ->
  NoDup (compare_columns w) ->
  rows b <> [] ->
  key_cells_present (key_columns w) b ->
  Forall2 (agree_on (key_columns w ++ compare_columns w)) (rows b) (rows a) ->
  compare_page set_iter index_union b a w
  = ComparisonShown (mkSummary 0 0 0 true)
      [("Deleted", [[Some (VStr "No deleted rows")]]);
       ("Added", [[Some (VStr "No added rows")]]);
       ("Modified", [[Some (VStr "No modified rows")]])].
Proof.
  intros Hsame Hconf Hkne Hcne Hclick Hk Hc _ _ _ _ Hag. unfold compare_page.
  rewrite Hsame, Hconf, Hclick.
  destruct (key_columns w) as [| k0 k] eqn:Ek; [congruence |].
  destruct (compare_columns w) as [| c0 c] eqn:Ec; [congruence |].
  unfold copy. rewrite (selection_resolves b a _ _ Hsame Hk Hc). cbn [snd].
  unfold outputs_of.
  rewrite (modified_pairs_agree _ _ b a _ Hag).
  pose proof (agree_same_keys _ _ _ _ Hag) as Hkeys.
  rewrite (unmatched_rows_same_keys _ b a Hkeys).
  rewrite (unmatched_rows_same_keys _ a b (eq_sym Hkeys)).
  reflexivity.
Qed.

End Script_properties.

(** * Runs of the engine on concrete tables *)

Lemma first_seen_enumerates (l : list value) : Permutation (first_seen l) l.
Proof. apply Permutation_refl. Qed.

Ltac in_list := simpl; intuition (auto; discriminate).
Ltac incl_list := let x := fresh in let H := fresh in
                  intros x H; simpl in H |- *; intuition auto.
Ltac nodup_list := repeat constructor; in_list.
Ltac cells_present := let r := fresh in let col := fresh in
                      let Hr := fresh in let Hc := fresh in
                      unfold key_cells_present;
                      intros r col Hr Hc _; cbv in Hr, Hc;
                      intuition (subst; vm_compute in *; try intro;
                                 first [discriminate | congruence]).
Ltac text_cell col := unfold has_text; exists col; eexists; eexists;
                      split; [in_list |];
                      split; [vm_compute; left; reflexivity
                             | vm_compute; reflexivity].

(** ** The end-to-end example of the specification (section 8, item 6) *)

Example ex_run :
  snd (compare_dataframes first_seen ex_before ex_after ["id"] ["name"; "val"])
  = Ok ex_outputs.
Proof. vm_compute. reflexivity. Qed.

(** ** C1: calls that violate a precondition and still return *)

(** C1 fails on the code.  With an empty compare selection, and with tables
    whose column sets differ, the specification's preconditions do not hold,
    yet the engine returns its four tables. *)
Lemma engine_runs_on_invalid_input :
  (spec_preconditions ex_before ex_after ["id"] [] = false /\
   is_ok (snd (compare_dataframes first_seen ex_before ex_after ["id"] []))
   = true) /\
  (spec_preconditions wide_before ex_after ["id"] ["name"; "val"] = false /\
   is_ok (snd (compare_dataframes first_seen wide_before ex_after
                 ["id"] ["name"; "val"]))
   = true).
Proof. vm_compute. repeat split. Qed.

Lemma engine_raises_iff_column_missing_witness :
  (exists o,
     snd (compare_dataframes first_seen ex_before ex_after
            ["id"] ["name"; "val"]) = Ok o) /\
  (exists missing,
     snd (compare_dataframes first_seen ex_before ex_after
            ["id"] ["price"]) = Err (KeyError missing)).
Proof.
  assert (Hb : key_cells_present ["id"] ex_before) by cells_present.
  assert (Ha : key_cells_present ["id"] ex_after) by cells_present.
  assert (Hrb : rows ex_before <> []) by (vm_compute; discriminate).
  assert (Hra : rows ex_after <> []) by (vm_compute; discriminate).
  assert (Hk : ["id"] <> []) by discriminate.
  split.
  - apply (proj1 (engine_raises_iff_column_missing first_seen
                    first_seen_enumerates ex_before ex_after
                    ["id"] ["name"; "val"] Hb Ha Hrb Hra Hk)).
    + repeat split; incl_list.
    + nodup_list.
  - apply (proj2 (engine_raises_iff_column_missing first_seen
                    first_seen_enumerates ex_before ex_after
                    ["id"] ["price"] Hb Ha Hrb Hra Hk)).
    intros (_ & _ & H & _). specialize (H "price" (or_introl eq_refl)).
    revert H. unfold KEY. in_list.
Defined.

(** ** C2: the tables after the call *)

(** C2 fails on the code.  After the call the before table has a fourth
    column, [_key]; the pair of tables is not the pair that was passed. *)
Lemma engine_changes_its_inputs :
  columns ex_before = ["id"; "name"; "val"] /\
  columns (fst (fst (compare_dataframes first_seen ex_before ex_after
                       ["id"] ["name"; "val"])))
  = ["id"; "name"; "val"; "_key"] /\
  fst (compare_dataframes first_seen ex_before ex_after ["id"] ["name"; "val"])
  <> (ex_before, ex_after).
Proof.
  split; [reflexivity |]. split; [vm_compute; reflexivity |].
  intros H. apply (f_equal (fun p => List.length (columns (fst p)))) in H.
  vm_compute in H. discriminate.
Qed.

Lemma engine_writes_key_column_witness :
  key_column_written ["id"] ex_before
    (fst (fst (compare_dataframes first_seen ex_before ex_after
                 ["id"] ["name"; "val"]))) /\
  key_column_written ["id"] ex_after
    (snd (fst (compare_dataframes first_seen ex_before ex_after
                 ["id"] ["name"; "val"]))).
Proof.
  apply (engine_writes_key_column first_seen first_seen_enumerates
           ex_before ex_after ["id"] ["name"; "val"] ex_outputs).
  vm_compute. reflexivity.
Defined.

(** ** C3: a compare selection that overlaps the key selection *)

(** C3 fails on the code.  With key column [id] and compare columns
    [id, val], Deleted has the columns [id, id, val]: [id] twice, where the
    union the specification describes is [id, val]. *)
Lemma overlap_repeats_columns :
  exists o,
    snd (compare_dataframes first_seen overlap_before overlap_after
           ["id"] ["id"; "val"]) = Ok o /\
    columns (deleted o) = ["id"; "id"; "val"] /\
    spec_columns ["id"] ["id"; "val"] = ["id"; "val"] /\
    ~ NoDup (columns (deleted o)).
Proof.
  eexists. split; [vm_compute; reflexivity |].
  split; [reflexivity |]. split; [reflexivity |].
  simpl. intros H. inversion H as [| ? ? Hin _]. apply Hin. left. reflexivity.
Qed.

Lemma output_columns_witness :
  (columns (deleted ex_outputs) = ["id"; "name"; "val"] /\
   columns (added ex_outputs) = ["id"; "name"; "val"]) /\
  Forall (fun t => columns t = spec_columns ["id"] ["name"; "val"])
         [deleted ex_outputs; added ex_outputs;
          modified_before_df ex_outputs; modified_after_df ex_outputs] /\
  NoDup (spec_columns ["id"] ["name"; "val"]).
Proof.
  destruct (output_columns first_seen first_seen_enumerates
              ex_before ex_after ["id"] ["name"; "val"] ex_outputs)
    as [Hlists Hunion].
  - vm_compute. reflexivity.
  - split; [exact Hlists |]. apply Hunion. nodup_list.
Defined.

(** ** C4: the integer 5 against the text "5" *)

Lemma modified_iff_compared_field_differs_witness :
  let a1_before :=
    mkSeries 0 [("sku", VStr "a1"); ("qty", VInt 5); ("bin", VStr "north")] in
  let a1_after :=
    mkSeries 0 [("sku", VStr "a1"); ("qty", VStr "5"); ("bin", VStr "north")] in
  (In (select ["sku"; "qty"; "bin"] a1_before,
       select ["sku"; "qty"; "bin"] a1_after)
      (combine (rows (modified_before_df stock_outputs))
               (rows (modified_after_df stock_outputs)))
   <->
   exists col, In col ["qty"; "bin"] /\
               str (cell a1_before col) <> str (cell a1_after col)).
Proof.
  apply (modified_iff_compared_field_differs first_seen first_seen_enumerates
           stock_before stock_after ["sku"] ["qty"; "bin"] stock_outputs)
    with (key := VStr "a1").
  - vm_compute. reflexivity.
  - nodup_list.
  - unfold KEY. in_list.
  - text_cell "sku".
  - text_cell "sku".
  - vm_compute. reflexivity.
  - vm_compute. reflexivity.
Defined.

(** The pair [a1] of the run above is not reported: 5 and "5" stringify
    alike. *)
Example five_is_five :
  snd (compare_dataframes first_seen stock_before stock_after
         ["sku"] ["qty"; "bin"]) = Ok stock_outputs /\
  map (fun r => cell r "sku") (rows (modified_before_df stock_outputs))
  = [VStr "b2"].
Proof. split; vm_compute; reflexivity. Qed.

(** ** C5 *)

Lemma deleted_added_rows_witness :
  rows (deleted ex_outputs) =
    map (select ["id"; "name"; "val"])
        (filter (fun r => negb (bears_key ["id"] ex_after
                                  (composite_key ["id"] r)))
                (rows ex_before)) /\
  rows (added ex_outputs) =
    map (select ["id"; "name"; "val"])
        (filter (fun r => negb (bears_key ["id"] ex_before
                                  (composite_key ["id"] r)))
                (rows ex_after)).
Proof.
  apply (deleted_added_rows first_seen first_seen_enumerates
           ex_before ex_after ["id"] ["name"; "val"] ex_outputs).
  - vm_compute. reflexivity.
  - unfold KEY. in_list.
Defined.

(** ** C4 and C5: tables that already have a column called [_key] *)

(** C4 against the code.  The rows with id 7 are the first rows of the two
    tables bearing the composite key "7", and their cells in the compare
    column [_key] are "a" and "b"; the engine reports no modified pair.
    Line 45 and line 46 have overwritten both cells with the composite key
    before the comparison reads them. *)
Lemma key_column_hides_change :
  exists o,
    snd (compare_dataframes first_seen tagged_before tagged_after
           ["id"] ["_key"]) = Ok o /\
    first_with_key ["id"] tagged_before (VStr "7")
    = Some (mkSeries 0 [("id", VInt 7); ("_key", VStr "a")]) /\
    first_with_key ["id"] tagged_after (VStr "7")
    = Some (mkSeries 0 [("id", VInt 7); ("_key", VStr "b")]) /\
    str (VStr "a") <> str (VStr "b") /\
    rows (modified_before_df o) = [] /\
    rows (modified_after_df o) = [].
Proof.
  eexists. split; [vm_compute; reflexivity |].
  repeat split. simpl. discriminate.
Qed.

(** C5 against the code.  The before row with id 5 has no partner and is
    reported deleted, but its [_key] cell, "old" in the table, reads "5" in
    Deleted: the row reported is not the projection of the table's row. *)
Lemma key_column_overwritten_in_deleted :
  exists o,
    snd (compare_dataframes first_seen tagged_before tagged_after
           ["id"] ["_key"]) = Ok o /\
    rows (deleted o) = [mkSeries 1 [("id", VInt 5); ("_key", VStr "5")]] /\
    rows (added o) = [mkSeries 1 [("id", VInt 6); ("_key", VStr "6")]] /\
    map (select ["id"; "_key"])
        (filter (fun r => negb (bears_key ["id"] tagged_after
                                  (composite_key ["id"] r)))
                (rows tagged_before))
    = [mkSeries 1 [("id", VInt 5); ("_key", VStr "old")]].
Proof.
  eexists. split; [vm_compute; reflexivity |].
  repeat split.
Qed.

(** ** C6: two key columns, and a key value that holds the separator *)

(** C6 fails on the code.  The before row (dept "A||B", empId "C") and the
    after row (dept "A", empId "B||C") have different key values and the
    same composite key "A||B||C": the engine matches them - neither is
    reported deleted or added - and reports them as one modified pair.  The
    two "Sales"/"Ops" rows with empId 7 are, rightly, not matched. *)
Lemma separator_collision_matches_different_keys :
  exists o,
    snd (compare_dataframes first_seen staff_before staff_after
           ["dept"; "empId"] ["pay"]) = Ok o /\
    map (fun r => (cell r "dept", cell r "empId")) (rows (deleted o))
    = [(VStr "Sales", VStr "7")] /\
    map (fun r => (cell r "dept", cell r "empId")) (rows (added o))
    = [(VStr "Ops", VStr "7")] /\
    map (fun r => (cell r "dept", cell r "empId")) (rows (modified_before_df o))
    = [(VStr "A||B", VStr "C")] /\
    map (fun r => (cell r "dept", cell r "empId")) (rows (modified_after_df o))
    = [(VStr "A", VStr "B||C")].
Proof.
  eexists. split; [vm_compute; reflexivity |].
  repeat split.
Qed.

Lemma composite_key_matching_witness :
  let sales :=
    mkSeries 0 [("dept", VStr "Sales"); ("empId", VStr "7"); ("pay", VInt 100)] in
  let ops :=
    mkSeries 0 [("dept", VStr "Ops"); ("empId", VStr "7"); ("pay", VInt 100)] in
  column (fst (fst (compare_dataframes first_seen staff_before staff_after
                      ["dept"; "empId"] ["pay"]))) KEY
  = [VStr "Sales||7"; VStr "A||B||C"] /\
  (composite_key ["dept"; "empId"] sales = composite_key ["dept"; "empId"] ops
   <-> ["Sales"; "7"] = ["Ops"; "7"]).
Proof.
  destruct (composite_key_matching first_seen first_seen_enumerates
              staff_before staff_after ["dept"; "empId"] ["pay"]
              (mkOutputs
                 (mkDataFrame ["dept"; "empId"; "pay"]
                    [mkSeries 0 [("dept", VStr "Sales"); ("empId", VStr "7");
                                 ("pay", VInt 100)]])
                 (mkDataFrame ["dept"; "empId"; "pay"]
                    [mkSeries 0 [("dept", VStr "Ops"); ("empId", VStr "7");
                                 ("pay", VInt 100)]])
                 (mkDataFrame ["dept"; "empId"; "pay"]
                    [mkSeries 1 [("dept", VStr "A||B"); ("empId", VStr "C");
                                 ("pay", VInt 1)]])
                 (mkDataFrame ["dept"; "empId"; "pay"]
                    [mkSeries 1 [("dept", VStr "A"); ("empId", VStr "B||C");
                                 ("pay", VInt 2)]])))
    as [[Hkeys _] [_ Hinj]].
  - vm_compute. reflexivity.
  - split; [exact Hkeys |].
    apply (Hinj (mkSeries 0 [("dept", VStr "Sales"); ("empId", VStr "7");
                             ("pay", VInt 100)])
                (mkSeries 0 [("dept", VStr "Ops"); ("empId", VStr "7");
                             ("pay", VInt 100)])).
    intros col Hcol. simpl in Hcol.
    destruct Hcol as [<- | [<- | []]]; split; reflexivity.
Defined.

(** ** C7, C9, C10: rows that share a composite key *)

Example dup_run :
  snd (compare_dataframes first_seen dup_before dup_after ["id"] ["val"])
  = Ok dup_outputs.
Proof. vm_compute. reflexivity. Qed.

Lemma rows_partition_witness :
  (forall r, In r (rows dup_before) ->
     exactly_one (reported_in (deleted dup_outputs) r)
                 (reported_in (modified_before_df dup_outputs) r)
                 (matched ["id"] dup_after r /\
                  ~ reported_in (modified_before_df dup_outputs) r) /\
     (reported_in (deleted dup_outputs) r <-> ~ matched ["id"] dup_after r)) /\
  (forall r, In r (rows dup_after) ->
     exactly_one (reported_in (added dup_outputs) r)
                 (reported_in (modified_after_df dup_outputs) r)
                 (matched ["id"] dup_before r /\
                  ~ reported_in (modified_after_df dup_outputs) r) /\
     (reported_in (added dup_outputs) r <-> ~ matched ["id"] dup_before r)).
Proof.
  apply (rows_partition first_seen first_seen_enumerates
           dup_before dup_after ["id"] ["val"] dup_outputs).
  - vm_compute. reflexivity.
  - simpl. nodup_list.
  - simpl. nodup_list.
Defined.

(** ** C8 *)

Lemma identical_tables_no_differences_witness :
  exists o,
    snd (compare_dataframes first_seen dup_before dup_before ["id"] ["val"])
    = Ok o /\
    rows (deleted o) = [] /\
    rows (added o) = [] /\
    rows (modified_before_df o) = [] /\
    rows (modified_after_df o) = [].
Proof.
  destruct (identical_tables_no_differences first_seen first_seen_enumerates
              dup_before ["id"] ["val"]) as [Hempty Hreturns].
  destruct Hreturns as [o Ho].
  - discriminate.
  - incl_list.
  - incl_list.
  - vm_compute. discriminate.
  - cells_present.
  - exists o. split; [exact Ho | apply Hempty; exact Ho].
Defined.

(** ** C9 and C10 *)



(** * Runs of the further properties *)

Lemma union_first_seen_lists (l l' : list Z) (x : Z) :
  In x (union_first_seen l l') <-> In x l \/ In x l'.
Proof.
  unfold union_first_seen. rewrite in_app_iff, filter_In, negb_true_iff.
  split; [tauto |]. intros [H | H]; [left; exact H |].
  destruct (existsb (Z.eqb x) l) eqn:E; [| tauto].
  apply existsb_exists in E. destruct E as [y [Hy Hxy]].
  apply Z.eqb_eq in Hxy. subst y. left. exact Hy.
Qed.

Example no_rows_run :
  snd (compare_dataframes first_seen ex_before no_rows_after
         ["id"] ["name"; "val"]) = Ok no_rows_outputs.
Proof. vm_compute. reflexivity. Qed.

Example noted_run :
  snd (compare_dataframes first_seen noted_before noted_after ["id"] ["val"])
  = Ok nothing_reported.
Proof. vm_compute. reflexivity. Qed.

Example moved_run :
  snd (compare_dataframes first_seen moved_before moved_after ["id"] ["val"])
  = Ok moved_outputs.
Proof. vm_compute. reflexivity. Qed.

(** The report of [moved_run]: the changed record [b] is spread over two
    lines of the Modified sheet, its before values on one and its after
    values on the other. *)
Example moved_report :
  create_excel_output union_first_seen
    (deleted moved_outputs) (added moved_outputs)
    (modified_before_df moved_outputs) (modified_after_df moved_outputs)
  = Exported
      [("Deleted",
        [[Some (VStr "id"); Some (VStr "val")];
         [Some (VStr "a"); Some (VInt 1)]]);
       ("Added", [[Some (VStr "No added rows")]]);
       ("Modified",
        [[Some (VStr "id (Before)"); Some (VStr "val (Before)");
          Some (VStr "id (After)"); Some (VStr "val (After)")];
         [Some (VStr "b"); Some (VInt 2); None; None];
         [None; None; Some (VStr "b"); Some (VInt 3)]])].
Proof. vm_compute. reflexivity. Qed.

Lemma swapping_tables_swaps_outputs_witness :
  exists o',
    snd (compare_dataframes first_seen ex_after ex_before
           ["id"] ["name"; "val"]) = Ok o' /\
    deleted o' = added ex_outputs /\
    added o' = deleted ex_outputs /\
    Permutation
      (combine (rows (modified_before_df o')) (rows (modified_after_df o')))
      (map swap_pair
         (combine (rows (modified_before_df ex_outputs))
                  (rows (modified_after_df ex_outputs)))).
Proof.
  apply (swapping_tables_swaps_outputs first_seen first_seen_enumerates
           ex_before ex_after ["id"] ["name"; "val"] ex_outputs).
  vm_compute. reflexivity.
Defined.

Lemma empty_table_all_deleted_or_added_witness :
  rows (deleted no_rows_outputs)
  = map (out_row ["id"] ["id"; "name"; "val"]) (rows ex_before) /\
  rows (added no_rows_outputs) = [] /\
  rows (modified_before_df no_rows_outputs) = [] /\
  rows (modified_after_df no_rows_outputs) = [].
Proof.
  apply (proj1 (empty_table_all_deleted_or_added first_seen
                  first_seen_enumerates ex_before no_rows_after
                  ["id"] ["name"; "val"] no_rows_outputs
                  ltac:(vm_compute; reflexivity))).
  reflexivity.
Defined.

Lemma unselected_columns_are_ignored_witness :
  rows (deleted nothing_reported) = [] /\
  rows (added nothing_reported) = [] /\
  rows (modified_before_df nothing_reported) = [] /\
  rows (modified_after_df nothing_reported) = [].
Proof.
  apply (unselected_columns_are_ignored first_seen first_seen_enumerates
           noted_before noted_after ["id"] ["val"] nothing_reported).
  - vm_compute. reflexivity.
  - repeat constructor; intros col [<- | [<- | []]]; reflexivity.
Defined.

Lemma second_call_same_outputs_witness :
  compare_dataframes first_seen
    (fst (fst (compare_dataframes first_seen ex_before ex_after
                 ["id"] ["name"; "val"])))
    (snd (fst (compare_dataframes first_seen ex_before ex_after
                 ["id"] ["name"; "val"])))
    ["id"] ["name"; "val"]
  = (fst (compare_dataframes first_seen ex_before ex_after
            ["id"] ["name"; "val"]),
     Ok ex_outputs).
Proof.
  apply (second_call_same_outputs first_seen first_seen_enumerates
           ex_before ex_after ["id"] ["name"; "val"] ex_outputs).
  - vm_compute. reflexivity.
  - unfold KEY. in_list.
Defined.

Lemma modified_sheet_side_by_side_witness :
  exists deleted_sheet added_sheet,
    create_excel_output union_first_seen
      (deleted ex_outputs) (added ex_outputs)
      (modified_before_df ex_outputs) (modified_after_df ex_outputs)
    = Exported
        [("Deleted", deleted_sheet); ("Added", added_sheet);
         ("Modified",
          modified_header (modified_before_df ex_outputs)
                          (modified_after_df ex_outputs)
          :: map (fun p => written_cells (fst p) ++ written_cells (snd p))
                 (combine (rows (modified_before_df ex_outputs))
                          (rows (modified_after_df ex_outputs))))].
Proof.
  apply (modified_sheet_side_by_side union_first_seen
           (deleted ex_outputs) (added ex_outputs)
           (modified_before_df ex_outputs) (modified_after_df ex_outputs));
    reflexivity.
Defined.

Lemma modified_header_distinct_witness :
  NoDup (modified_header (modified_before_df ex_outputs)
                         (modified_after_df ex_outputs)).
Proof.
  apply (modified_header_distinct (modified_before_df ex_outputs)
                                  (modified_after_df ex_outputs));
    simpl; nodup_list.
Defined.

Lemma modified_sheet_joined_on_labels_witness :
  exists deleted_sheet added_sheet lines,
    create_excel_output union_first_seen
      (deleted moved_outputs) (added moved_outputs)
      (modified_before_df moved_outputs) (modified_after_df moved_outputs)
    = Exported
        [("Deleted", deleted_sheet); ("Added", added_sheet);
         ("Modified",
          modified_header (modified_before_df moved_outputs)
                          (modified_after_df moved_outputs) :: lines)] /\
    (forall rb, In rb (rows (modified_before_df moved_outputs)) ->
       In (written_cells rb
           ++ beside (modified_after_df moved_outputs) (name rb)) lines) /\
    (forall ra, In ra (rows (modified_after_df moved_outputs)) ->
       In (beside (modified_before_df moved_outputs) (name ra)
           ++ written_cells ra) lines) /\
    (forall line, In line lines ->
       exists l,
         (In l (index (modified_before_df moved_outputs)) \/
          In l (index (modified_after_df moved_outputs))) /\
         line = beside (modified_before_df moved_outputs) l
                ++ beside (modified_after_df moved_outputs) l).
Proof.
  apply (modified_sheet_joined_on_labels union_first_seen
           union_first_seen_lists
           (deleted moved_outputs) (added moved_outputs)
           (modified_before_df moved_outputs)
           (modified_after_df moved_outputs)).
  - reflexivity.
  - simpl. nodup_list.
  - simpl. nodup_list.
Defined.

Lemma comparison_page_never_fails_witness :
  compare_page first_seen union_first_seen ex_before ex_after
    (picked ["id"] ["name"; "val"]) <> ErrorShown /\
  (forall summary book,
     compare_page first_seen union_first_seen ex_before ex_after
       (picked ["id"] ["name"; "val"]) = ComparisonShown summary book ->
     spec_preconditions ex_before ex_after ["id"] ["name"; "val"] = true /\
     NoDup (["id"] ++ ["name"; "val"])).
Proof.
  apply (comparison_page_never_fails first_seen union_first_seen
           first_seen_enumerates ex_before ex_after
           (picked ["id"] ["name"; "val"])).
  - simpl. nodup_list.
  - simpl. nodup_list.
  - simpl. incl_list.
  - intros x Hx. vm_compute in Hx |- *. intuition auto.
  - simpl. nodup_list.
  - simpl. nodup_list.
Defined.

Lemma unchanged_files_report_witness :
  compare_page first_seen union_first_seen noted_before noted_after
    (picked ["id"] ["val"])
  = ComparisonShown (mkSummary 0 0 0 true)
      [("Deleted", [[Some (VStr "No deleted rows")]]);
       ("Added", [[Some (VStr "No added rows")]]);
       ("Modified", [[Some (VStr "No modified rows")]])].
Proof.
  apply (unchanged_files_report first_seen union_first_seen
           first_seen_enumerates noted_before noted_after
           (picked ["id"] ["val"])).
  - reflexivity.
  - reflexivity.
  - discriminate.
  - discriminate.
  - reflexivity.
  - simpl. incl_list.
  - intros x Hx. vm_compute in Hx |- *. intuition auto.
  - simpl. nodup_list.
  - simpl. nodup_list.
  - vm_compute. discriminate.
  - cells_present.
  - repeat constructor; intros col [<- | [<- | []]]; reflexivity.
Defined.

Lemma report_has_three_filled_sheets_witness :
  exists deleted_sheet added_sheet modified_sheet,
    [("Deleted",
      [[Some (VStr "id"); Some (VStr "val")];
       [Some (VStr "a"); Some (VInt 1)]]);
     ("Added", [[Some (VStr "No added rows")]]);
     ("Modified",
      [[Some (VStr "id (Before)"); Some (VStr "val (Before)");
        Some (VStr "id (After)"); Some (VStr "val (After)")];
       [Some (VStr "b"); Some (VInt 2); None; None];
       [None; None; Some (VStr "b"); Some (VInt 3)]])]
    = [("Deleted", deleted_sheet); ("Added", added_sheet);
       ("Modified", modified_sheet)] /\
    (if empty (deleted moved_outputs)
     then deleted_sheet = [[Some (VStr "No deleted rows")]]
     else exists line lines,
            deleted_sheet
            = map (fun col => Some (VStr col)) (columns (deleted moved_outputs))
              :: line :: lines) /\
    (if empty (added moved_outputs)
     then added_sheet = [[Some (VStr "No added rows")]]
     else exists line lines,
            added_sheet
            = map (fun col => Some (VStr col)) (columns (added moved_outputs))
              :: line :: lines) /\
    (if empty (modified_before_df moved_outputs)
     then modified_sheet = [[Some (VStr "No modified rows")]]
     else exists line lines,
            modified_sheet
            = modified_header (modified_before_df moved_outputs)
                              (modified_after_df moved_outputs)
              :: line :: lines).
Proof.
  apply (report_has_three_filled_sheets union_first_seen
           union_first_seen_lists
           (deleted moved_outputs) (added moved_outputs)
           (modified_before_df moved_outputs)
           (modified_after_df moved_outputs)).
  vm_compute. reflexivity.
Defined.
